(** * Overbooking risk and ROI calculators ([app.py])

    A shallow embedding of the two calculator classes of [app.py],
    [OverbookingAnalyzer] and [ROIAnalyzer], of the trigger of the
    Monte Carlo tab that calls the second one, and of the values the page
    computes from them (risk and ROI labels, scenario table, sensitivity
    curve, ROI scenarios).

    Conventions of the embedding.

    - Python integers are [Z].  Python and NumPy floating-point numbers are
      idealised as exact rationals ([Q]); equalities between numeric results
      are therefore stated with [==] ([Qeq]).  Rounding is not modelled.
    - A value of type [npfloat] is a NumPy/SciPy float: [Some q] is the
      finite number [q], [None] is a non-finite IEEE value ([nan] or an
      infinity).  SciPy returns [nan] on invalid distribution parameters and
      NumPy returns an infinity or [nan] when dividing by zero.
    - A Python call that may raise is a [pyresult]: [Ok v] or [Raise e].
    - [scipy.stats.binom] is an external library; [binom_pmf] and
      [binom_cdf] follow its documented semantics.
    - NumPy's global generator is external too.  It is a parameter of the
      development (section [MonteCarlo]): a state type, the seeding function
      and the routine drawing one standard normal deviate. *)

From Stdlib Require Import ZArith QArith Qminmax List Lia Lqa Bool.
Import ListNotations.

Local Open Scope Z_scope.
Local Open Scope Q_scope.

(** ** Python and NumPy values *)

Inductive pyexn : Type :=
| ZeroDivisionError
| ValueError.

Inductive pyresult (A : Type) : Type :=
| Ok (v : A)
| Raise (e : pyexn).

Arguments Ok {A} v.
Arguments Raise {A} e.

Definition npfloat : Type := option Q.

(** [x] is the finite number [v] (up to [==]). *)
Definition is_num (x : npfloat) (v : Q) : Prop :=
  match x with
  | Some q => q == v
  | None => False
  end.

(** The call returned the number [v] (up to [==]). *)
Definition ok_num (r : pyresult Q) (v : Q) : Prop :=
  match r with
  | Ok q => q == v
  | Raise _ => False
  end.

(** The test [x > y] on floats; every comparison with [nan] is false. *)
Definition np_gt (x : npfloat) (y : Q) : bool :=
  match x with
  | Some q => negb (Qle_bool q y)
  | None => false
  end.

(** [x <= y] holds for a finite [x] not above [y]. *)
Definition np_le (x : npfloat) (y : Q) : Prop :=
  match x with
  | Some q => q <= y
  | None => False
  end.

(** Arithmetic on floats: a non-finite operand gives a non-finite result. *)
Definition np_lift2 (f : Q -> Q -> Q) (x y : npfloat) : npfloat :=
  match x, y with
  | Some a, Some b => Some (f a b)
  | _, _ => None
  end.

Definition np_add : npfloat -> npfloat -> npfloat := np_lift2 Qplus.
Definition np_sub : npfloat -> npfloat -> npfloat := np_lift2 Qminus.
Definition np_mul : npfloat -> npfloat -> npfloat := np_lift2 Qmult.

(** Equality of floats as values: the same finite number, or both
    non-finite. *)
Definition np_eq (x y : npfloat) : Prop :=
  match x, y with
  | Some a, Some b => a == b
  | None, None => True
  | _, _ => False
  end.

(** NumPy's [x / y] for a finite [x] and a Python number [y]: dividing by
    zero gives an infinity or [nan] (with a warning), not an exception. *)
Definition np_div (x : npfloat) (y : Q) : npfloat :=
  match x with
  | Some a => if Qeq_bool y 0 then None else Some (a / y)
  | None => None
  end.

(** Python's [x / y] on numbers: raises [ZeroDivisionError] when [y] is
    zero. *)
Definition py_div (x y : Q) : pyresult Q :=
  if Qeq_bool y 0 then Raise ZeroDivisionError else Ok (x / y).

(** Truth value of an optional number: [None] and zero are false. *)
Definition py_truthy (x : option Q) : bool :=
  match x with
  | Some r => negb (Qeq_bool r 0)
  | None => false
  end.

(** [range(a, b)] *)
Definition py_range (a b : Z) : list Z :=
  map (fun i => (a + Z.of_nat i)%Z) (seq 0 (Z.to_nat (b - a))).

(** ** [scipy.stats.binom] *)

Fixpoint factQ (n : nat) : Q :=
  match n with
  | O => 1
  | S m => inject_Z (Z.of_nat (S m)) * factQ m
  end.

Fixpoint Qpow (q : Q) (n : nat) : Q :=
  match n with
  | O => 1
  | S m => q * Qpow q m
  end.

(** The binomial coefficient [n choose k], for [k <= n]. *)
Definition choose (n k : nat) : Q :=
  factQ n / (factQ k * factQ (n - k)).

(** Probability mass of [k] successes among [n] trials, zero outside
    the support [0..n]. *)
Definition pmf_nat (p : Q) (n k : nat) : Q :=
  if (k <=? n)%nat then choose n k * Qpow p k * Qpow (1 - p) (n - k) else 0.

(** [f 0 + f 1 + ... + f k] *)
Fixpoint sum_upto (f : nat -> Q) (k : nat) : Q :=
  match k with
  | O => f O
  | S j => sum_upto f j + f (S j)
  end.

(** The argument check of the distribution: [n >= 0] and [0 <= p <= 1]. *)
Definition binom_argcheck (n : Z) (p : Q) : bool :=
  (0 <=? n)%Z && Qle_bool 0 p && Qle_bool p 1.

(** [binom.pmf(k, n, p)] *)
Definition binom_pmf (k n : Z) (p : Q) : npfloat :=
  if binom_argcheck n p then
    if ((0 <=? k)%Z && (k <=? n)%Z)%bool
    then Some (pmf_nat p (Z.to_nat n) (Z.to_nat k))
    else Some 0
  else None.

(** [binom.cdf(k, n, p)]: 0 below the support, 1 from its upper end on,
    the sum of the masses of [0..k] in between. *)
Definition binom_cdf (k n : Z) (p : Q) : npfloat :=
  if binom_argcheck n p then
    if (k <? 0)%Z then Some 0
    else if (n <=? k)%Z then Some 1
    else Some (sum_upto (pmf_nat p (Z.to_nat n)) (Z.to_nat k))
  else None.

(** The value of [binom_cdf] at [k >= 0] for valid parameters. *)
Definition cdf_q (k n : Z) (p : Q) : Q :=
  if (n <=? k)%Z then 1 else sum_upto (pmf_nat p (Z.to_nat n)) (Z.to_nat k).

(** ** [class OverbookingAnalyzer] *)

Module OverbookingAnalyzer.

Record t : Type := mk {
  capacidade : Z;
  taxa_no_show : Q;
  prob_comparecimento : Q
}.

(** [__init__]: stores its arguments and the derived show probability.
    No check is made and nothing is raised. *)
Definition new (capacidade : Z) (taxa_no_show : Q) : t :=
  mk capacidade taxa_no_show (1 - taxa_no_show).

(** The constructor call [OverbookingAnalyzer(capacidade, taxa_no_show)]
    as a call that could raise: it never does. *)
Definition init (capacidade : Z) (taxa_no_show : Q) : pyresult t :=
  Ok (new capacidade taxa_no_show).

Definition calcular_prob_overbooking (self : t) (passagens_vendidas : Z) : npfloat :=
  option_map (fun c => 1 - c)
    (binom_cdf (capacidade self) passagens_vendidas (prob_comparecimento self)).

(** The [for] loop of [encontrar_max_passagens] over the remaining values
    of [n]: [Some (n - 1)] when the [return] inside the loop is taken,
    [None] when the loop runs to its end. *)
Fixpoint encontrar_loop (self : t) (limite_risco : Q) (ns : list Z) : option Z :=
  match ns with
  | [] => None
  | n :: rest =>
      if np_gt (calcular_prob_overbooking self n) limite_risco
      then Some (n - 1)%Z
      else encontrar_loop self limite_risco rest
  end.

Definition encontrar_max_passagens (self : t) (limite_risco : Q) : Z :=
  match encontrar_loop self limite_risco
          (py_range (capacidade self) (capacidade self + 50)) with
  | Some r => r
  | None => capacidade self
  end.

(** *** Vocabulary for the result of the scan *)

(** [n] is one of the ticket counts the loop visits. *)
Definition in_scan_range (self : t) (n : Z) : Prop :=
  (capacidade self <= n <= capacidade self + 49)%Z.

(** The test of the loop succeeds at [n]. *)
Definition exceeds (self : t) (limite_risco : Q) (n : Z) : Prop :=
  np_gt (calcular_prob_overbooking self n) limite_risco = true.

(** [r] is the largest visited count whose probability is within the
    limit. *)
Definition largest_within_risk (self : t) (limite_risco : Q) (r : Z) : Prop :=
  in_scan_range self r /\
  np_le (calcular_prob_overbooking self r) limite_risco /\
  forall n, in_scan_range self n ->
            np_le (calcular_prob_overbooking self n) limite_risco ->
            (n <= r)%Z.

(** The returned dictionary, one field per key. *)
Record analise : Type := mk_analise {
  receita_adicional : Q;
  custo_esperado : npfloat;
  lucro_esperado : npfloat;
  prob_overbooking : npfloat
}.

(** One iteration of the loop of [analise_financeira]:
    [valor_esperado_excesso += prob_k * excesso]. *)
Definition excesso_step (self : t) (passagens_total : Z)
    (valor_esperado_excesso : npfloat) (k : Z) : npfloat :=
  let prob_k := binom_pmf k passagens_total (prob_comparecimento self) in
  let excesso := (k - capacidade self)%Z in
  np_add valor_esperado_excesso (np_mul prob_k (Some (inject_Z excesso))).

(** The value of [valor_esperado_excesso] when the loop ends. *)
Definition valor_esperado_excesso (self : t) (passagens_extra : Z) : npfloat :=
  let passagens_total := (capacidade self + passagens_extra)%Z in
  fold_left (excesso_step self passagens_total)
    (py_range (capacidade self + 1) (passagens_total + 1)) (Some 0).

(** The expected excess as the specification words it: the sum, for [k]
    from [capacidade + 1] to [passagens_total], of the mass of [k] times
    [k - capacidade]. *)
Definition expected_excess_sum (self : t) (passagens_extra : Z) : npfloat :=
  let passagens_total := (capacidade self + passagens_extra)%Z in
  fold_right
    (fun k rest =>
       np_add (np_mul (binom_pmf k passagens_total (prob_comparecimento self))
                      (Some (inject_Z (k - capacidade self))))
              rest)
    (Some 0)
    (py_range (capacidade self + 1) (passagens_total + 1)).

Definition analise_financeira (self : t) (passagens_extra : Z)
    (preco_passagem custo_indenizacao : Q) : analise :=
  let passagens_total := (capacidade self + passagens_extra)%Z in
  let prob_overbooking := calcular_prob_overbooking self passagens_total in
  let valor_esperado_excesso := valor_esperado_excesso self passagens_extra in
  let receita_adicional := inject_Z passagens_extra * preco_passagem in
  let custo_esperado := np_mul valor_esperado_excesso (Some custo_indenizacao) in
  let lucro_esperado := np_sub (Some receita_adicional) custo_esperado in
  mk_analise receita_adicional custo_esperado lucro_esperado prob_overbooking.

(** Default arguments of the methods. *)
Definition limite_risco_default : Q := 7 # 100.
Definition preco_passagem_default : Q := 500.
Definition custo_indenizacao_default : Q := 1200.

End OverbookingAnalyzer.

(** ** [class ROIAnalyzer] *)

Module ROIAnalyzer.

Record t : Type := mk {
  investimento : Q;
  receita_esperada : Q;
  custo_operacional : Q
}.

(** [calcular_roi(receita_real=None)]; [receita_real] is used when it is
    truthy, so neither [None] nor zero. *)
Definition calcular_roi (self : t) (receita_real : option Q) : pyresult Q :=
  let receita :=
    match receita_real with
    | Some r => if py_truthy receita_real then r else receita_esperada self
    | None => receita_esperada self
    end in
  let lucro := receita - custo_operacional self in
  match py_div lucro (investimento self) with
  | Ok d => Ok (d * 100)
  | Raise e => Raise e
  end.

(** The contents of the returned dictionary: three parallel arrays. *)
Record simulacao : Type := mk_simulacao {
  receitas : list Q;
  rois : list npfloat;
  performances : list Q
}.

(** [np.clip(x, 0, 1)] on one element. *)
Definition clip01 (x : Q) : Q := Qmin (Qmax x 0) 1.

Section MonteCarlo.

(** NumPy's global Mersenne Twister: its state, [np.random.seed] and the
    routine producing one standard normal deviate and the next state. *)
Variable rng_state : Type.
Variable np_random_seed : Z -> rng_state.
Variable gauss : rng_state -> Q * rng_state.

(** Computations on the global generator that may raise. *)
Definition rng (A : Type) : Type := rng_state -> pyresult A * rng_state.

(** [size] draws of [loc + scale * gauss()], in order. *)
Fixpoint draw_normal (loc scale : Q) (size : nat) (g : rng_state)
  : list Q * rng_state :=
  match size with
  | O => ([], g)
  | S m =>
      let (z, g1) := gauss g in
      let (xs, g2) := draw_normal loc scale m g1 in
      ((loc + scale * z) :: xs, g2)
  end.

(** [np.random.normal(loc, scale, size)]: a negative [scale] or a negative
    [size] raises [ValueError] and leaves the generator untouched. *)
Definition np_random_normal (loc scale : Q) (size : Z) : rng (list Q) :=
  fun g =>
    if Qle_bool 0 scale && (0 <=? size)%Z then
      let (xs, g') := draw_normal loc scale (Z.to_nat size) g in (Ok xs, g')
    else (Raise ValueError, g).

Definition simulacao_monte_carlo (self : t) (n_simulacoes : Z)
    (media_performance std_performance : Q) : rng simulacao :=
  fun _ =>
    let g := np_random_seed 42 in
    match np_random_normal media_performance std_performance n_simulacoes g with
    | (Ok drawn, g') =>
        let performances := map clip01 drawn in
        let receitas := map (fun p => p * receita_esperada self) performances in
        let rois :=
          map (fun receita =>
                 np_mul (np_div (Some (receita - custo_operacional self))
                                (investimento self))
                        (Some 100))
              receitas in
        (Ok (mk_simulacao receitas rois performances), g')
    | (Raise e, g') => (Raise e, g')
    end.

(** The button of the simulation tab: [np.random.seed(seed)] followed by
    the call of [simulacao_monte_carlo]. *)
Definition executar_simulacao (self : t) (seed n_simulacoes : Z)
    (media_performance std_performance : Q) : rng simulacao :=
  fun _ =>
    let g := np_random_seed seed in
    simulacao_monte_carlo self n_simulacoes media_performance std_performance g.

End MonteCarlo.

(** A small deterministic generator on which the model can be run in
    examples.  It stands for no part of NumPy: the properties below hold
    for every generator. *)
Module Toy.

Definition state : Type := Z.

Definition seed (s : Z) : state := (s mod 101)%Z.

Definition gauss (g : state) : Q * state :=
  (inject_Z (g mod 9 - 4) / 2, ((37 * g + 11) mod 101)%Z).

End Toy.

(** A run on the toy generator, with a standard deviation of zero. *)
Definition toy_run : pyresult simulacao * Toy.state :=
  simulacao_monte_carlo Toy.state Toy.seed Toy.gauss
    (mk 50000 80000 10000) 3 (3 # 4) 0 5%Z.

Definition toy_result : simulacao :=
  match fst toy_run with
  | Ok res => res
  | Raise _ => mk_simulacao [] [] []
  end.

End ROIAnalyzer.

(** ** The script below the two classes

    The values the page computes between its widgets.  The widgets and the
    formatting of numbers into text are not modelled: a table row holds the
    numbers that the script formats, and a label is an enumeration. *)

Module Dashboard.

(** The test [x <= y] of a conditional on floats; false for [nan]. *)
Definition np_leb (x : npfloat) (y : Q) : bool :=
  match x with
  | Some q => Qle_bool q y
  | None => false
  end.

(** [prob_overbooking = analyzer.calcular_prob_overbooking(passagens_vendidas) * 100] *)
Definition prob_overbooking (analyzer : OverbookingAnalyzer.t)
    (passagens_vendidas : Z) : npfloat :=
  np_mul (OverbookingAnalyzer.calcular_prob_overbooking analyzer passagens_vendidas)
         (Some 100).

(** The condition [prob_overbooking <= 7] of the risk labels. *)
Definition risco_ok (analyzer : OverbookingAnalyzer.t)
    (passagens_vendidas : Z) : bool :=
  np_leb (prob_overbooking analyzer passagens_vendidas) 7.

(** [max_passagens = analyzer.encontrar_max_passagens()] *)
Definition max_passagens (analyzer : OverbookingAnalyzer.t) : Z :=
  OverbookingAnalyzer.encontrar_max_passagens analyzer
    OverbookingAnalyzer.limite_risco_default.

(** The number shown as "acima do limite". *)
Definition acima_do_limite (analyzer : OverbookingAnalyzer.t)
    (passagens_vendidas : Z) : Z :=
  (passagens_vendidas - max_passagens analyzer)%Z.

(** The three ROI labels. *)
Inductive faixa_roi : Type :=
| Excelente
| Bom
| Baixo.

(** [... if roi_esperado > 100 else ... if roi_esperado > 50 else ...] *)
Definition classificar_roi (roi_esperado : Q) : faixa_roi :=
  if negb (Qle_bool roi_esperado 100) then Excelente
  else if negb (Qle_bool roi_esperado 50) then Bom
  else Baixo.

(** One row of the scenario table, before formatting. *)
Record cenario : Type := mk_cenario {
  passagens : Z;
  prob_pct : npfloat;
  lucro : npfloat;
  status_ok : bool
}.

(** The loop filling [cenarios_data]. *)
Definition cenarios (analyzer : OverbookingAnalyzer.t)
    (preco_passagem custo_indenizacao : Q) : list cenario :=
  let capacidade := OverbookingAnalyzer.capacidade analyzer in
  map (fun n =>
         let prob := prob_overbooking analyzer n in
         let resultado :=
           OverbookingAnalyzer.analise_financeira analyzer (n - capacidade)
             preco_passagem custo_indenizacao in
         mk_cenario n prob (OverbookingAnalyzer.lucro_esperado resultado)
                    (np_leb prob 7))
      (py_range capacidade (capacidade + 21)).

(** [np.arange(start, stop, step)] on integers, for a positive [step]:
    [start, start + step, ...] below [stop]. *)
Definition np_arange (start stop step : Z) : list Z :=
  map (fun i => (start + Z.of_nat i * step)%Z)
      (seq 0 (Z.to_nat ((stop - start + step - 1) / step))).

Definition custos_test : list Z := np_arange 5000 25001 2500.

(** [rois_test]: the ROI at each operating cost of [custos_test]; the
    division is NumPy's. *)
Definition rois_test (investimento receita_esperada : Q) : list npfloat :=
  map (fun custo =>
         np_mul (np_div (Some (receita_esperada - inject_Z custo)) investimento)
                (Some 100))
      custos_test.

(** The three performance scenarios of the ROI tab. *)
Definition roi_pessimista (roi_analyzer : ROIAnalyzer.t) : pyresult Q :=
  ROIAnalyzer.calcular_roi roi_analyzer
    (Some (ROIAnalyzer.receita_esperada roi_analyzer * (7 # 10))).

Definition roi_realista (roi_analyzer : ROIAnalyzer.t) : pyresult Q :=
  ROIAnalyzer.calcular_roi roi_analyzer
    (Some (ROIAnalyzer.receita_esperada roi_analyzer * (85 # 100))).

Definition roi_otimista (roi_analyzer : ROIAnalyzer.t) : pyresult Q :=
  ROIAnalyzer.calcular_roi roi_analyzer
    (Some (ROIAnalyzer.receita_esperada roi_analyzer)).

End Dashboard.

(** * Properties *)

(** ** The binomial distribution *)

Lemma factQ_pos (n : nat) : 0 < factQ n.
Proof.
  induction n as [|n IH]; [reflexivity|].
  change (0 < inject_Z (Z.of_nat (S n)) * factQ n).
  apply Qmult_lt_0_compat; [|exact IH].
  change 0 with (inject_Z 0). rewrite <- Zlt_Qlt. lia.
Qed.

Lemma factQ_nonzero (n : nat) : ~ factQ n == 0.
Proof. pose proof (factQ_pos n). lra. Qed.

Lemma factQ_S (n : nat) : factQ (S n) == (inject_Z (Z.of_nat n) + 1) * factQ n.
Proof.
  change (factQ (S n)) with (inject_Z (Z.of_nat (S n)) * factQ n).
  rewrite Nat2Z.inj_succ. unfold Z.succ. rewrite inject_Z_plus. reflexivity.
Qed.

Lemma Qpow_nonneg (q : Q) (n : nat) : 0 <= q -> 0 <= Qpow q n.
Proof.
  intros Hq. induction n as [|n IH]; simpl; [lra|].
  apply Qmult_le_0_compat; assumption.
Qed.

Lemma choose_pos (n k : nat) : 0 < choose n k.
Proof.
  unfold choose. apply Qlt_shift_div_l.
  - apply Qmult_lt_0_compat; apply factQ_pos.
  - rewrite Qmult_0_l. apply factQ_pos.
Qed.

Lemma choose_diag (n : nat) : choose n n == 1.
Proof.
  unfold choose. rewrite Nat.sub_diag. simpl factQ at 3.
  pose proof (factQ_nonzero n). field. assumption.
Qed.

Lemma choose_zero (n : nat) : choose n 0 == 1.
Proof.
  unfold choose. rewrite Nat.sub_0_r. simpl factQ at 2.
  pose proof (factQ_nonzero n). field. assumption.
Qed.

(** Pascal's rule. *)
Lemma choose_pascal (n k : nat) :
  (S k <= n)%nat -> choose (S n) (S k) == choose n k + choose n (S k).
Proof.
  intros Hk. unfold choose.
  replace (S n - S k)%nat with (S (n - S k)) by lia.
  replace (n - k)%nat with (S (n - S k)) by lia.
  rewrite !factQ_S.
  replace (Z.of_nat n) with (Z.of_nat (n - S k) + Z.of_nat k + 1)%Z by lia.
  rewrite !inject_Z_plus.
  pose proof (factQ_pos k) as Hfk.
  pose proof (factQ_pos (n - S k)) as Hfd.
  pose proof (factQ_pos n) as Hfn.
  assert (Hk0 : 0 <= inject_Z (Z.of_nat k))
    by (change 0 with (inject_Z 0); rewrite <- Zle_Qle; lia).
  assert (Hd0 : 0 <= inject_Z (Z.of_nat (n - S k)))
    by (change 0 with (inject_Z 0); rewrite <- Zle_Qle; lia).
  change (inject_Z 1) with 1.
  field. repeat split; lra.
Qed.

Lemma pmf_nat_nonneg (p : Q) (n k : nat) :
  0 <= p -> p <= 1 -> 0 <= pmf_nat p n k.
Proof.
  intros Hp0 Hp1. unfold pmf_nat.
  destruct (k <=? n)%nat; [|lra].
  apply Qmult_le_0_compat; [apply Qmult_le_0_compat|].
  - apply Qlt_le_weak, choose_pos.
  - apply Qpow_nonneg; assumption.
  - apply Qpow_nonneg; lra.
Qed.

Lemma pmf_nat_above (p : Q) (n k : nat) : (n < k)%nat -> pmf_nat p n k = 0.
Proof.
  intros H. unfold pmf_nat.
  destruct (Nat.leb_spec k n); [lia | reflexivity].
Qed.

(** One more trial, no success. *)
Lemma pmf_nat_step_0 (p : Q) (n : nat) :
  pmf_nat p (S n) 0 == (1 - p) * pmf_nat p n 0.
Proof.
  unfold pmf_nat. simpl Nat.leb. cbv iota.
  rewrite !choose_zero, !Nat.sub_0_r. simpl Qpow. ring.
Qed.

(** One more trial: the last one succeeds or fails. *)
Lemma pmf_nat_step_S (p : Q) (n k : nat) :
  pmf_nat p (S n) (S k) == p * pmf_nat p n k + (1 - p) * pmf_nat p n (S k).
Proof.
  destruct (Nat.lt_trichotomy k n) as [Hlt | [Heq | Hgt]].
  - unfold pmf_nat.
    destruct (Nat.leb_spec (S k) (S n)); [|lia].
    destruct (Nat.leb_spec k n); [|lia].
    destruct (Nat.leb_spec (S k) n); [|lia].
    rewrite choose_pascal by lia.
    replace (S n - S k)%nat with (n - k)%nat by lia.
    replace (n - k)%nat with (S (n - S k)) by lia.
    simpl Qpow. ring.
  - subst k. rewrite (pmf_nat_above p n (S n)) by lia.
    unfold pmf_nat. rewrite !Nat.leb_refl, !choose_diag, !Nat.sub_diag.
    simpl Qpow. ring.
  - rewrite (pmf_nat_above p (S n) (S k)) by lia.
    rewrite (pmf_nat_above p n k) by lia.
    rewrite (pmf_nat_above p n (S k)) by lia. ring.
Qed.

(** The distribution function after one more trial. *)
Lemma cdf_step_0 (p : Q) (n : nat) :
  sum_upto (pmf_nat p (S n)) 0 == (1 - p) * sum_upto (pmf_nat p n) 0.
Proof. simpl. apply pmf_nat_step_0. Qed.

Lemma cdf_step_S (p : Q) (n c : nat) :
  sum_upto (pmf_nat p (S n)) (S c) ==
  p * sum_upto (pmf_nat p n) c + (1 - p) * sum_upto (pmf_nat p n) (S c).
Proof.
  induction c as [|c IH].
  - simpl. rewrite pmf_nat_step_0, pmf_nat_step_S. ring.
  - change (sum_upto (pmf_nat p (S n)) (S (S c)))
      with (sum_upto (pmf_nat p (S n)) (S c) + pmf_nat p (S n) (S (S c))).
    rewrite IH, pmf_nat_step_S. simpl. ring.
Qed.

(** Adding a trial lowers the distribution function at [c] by the chance
    of being at [c] and succeeding once more. *)
Lemma cdf_step (p : Q) (n c : nat) :
  sum_upto (pmf_nat p (S n)) c ==
  sum_upto (pmf_nat p n) c - p * pmf_nat p n c.
Proof.
  destruct c as [|c].
  - rewrite cdf_step_0. simpl. ring.
  - rewrite cdf_step_S. simpl. ring.
Qed.

(** The masses of the whole support add up to one. *)
Lemma cdf_full (p : Q) (n : nat) :
  forall c, (n <= c)%nat -> sum_upto (pmf_nat p n) c == 1.
Proof.
  induction n as [|n IH]; intros c Hc.
  - induction c as [|c IHc]; simpl.
    + reflexivity.
    + rewrite IHc by lia. rewrite pmf_nat_above by lia. ring.
  - destruct c as [|c]; [lia|].
    rewrite cdf_step_S, !IH by lia. ring.
Qed.

Lemma cdf_antitone_step (p : Q) (n c : nat) :
  0 <= p -> p <= 1 ->
  sum_upto (pmf_nat p (S n)) c <= sum_upto (pmf_nat p n) c.
Proof.
  intros Hp0 Hp1. rewrite cdf_step.
  pose proof (pmf_nat_nonneg p n c Hp0 Hp1) as Hm.
  pose proof (Qmult_le_0_compat _ _ Hp0 Hm). lra.
Qed.

Lemma cdf_antitone (p : Q) (c m n : nat) :
  0 <= p -> p <= 1 -> (m <= n)%nat ->
  sum_upto (pmf_nat p n) c <= sum_upto (pmf_nat p m) c.
Proof.
  intros Hp0 Hp1 Hmn. induction Hmn as [|n Hmn IH].
  - apply Qle_refl.
  - eapply Qle_trans; [apply cdf_antitone_step; assumption | exact IH].
Qed.

Lemma cdf_le_1 (p : Q) (n c : nat) :
  0 <= p -> p <= 1 -> sum_upto (pmf_nat p n) c <= 1.
Proof.
  intros Hp0 Hp1.
  destruct (Nat.le_gt_cases n c) as [H | H].
  - rewrite cdf_full by assumption. apply Qle_refl.
  - rewrite <- (cdf_full p c c (Nat.le_refl c)).
    apply cdf_antitone; try assumption. lia.
Qed.

(** ** [OverbookingAnalyzer] *)

Module OverbookingFacts.
Import OverbookingAnalyzer.

Lemma binom_argcheck_true (n : Z) (p : Q) :
  (0 <= n)%Z -> 0 <= p -> p <= 1 -> binom_argcheck n p = true.
Proof.
  intros Hn Hp0 Hp1. unfold binom_argcheck.
  rewrite !andb_true_iff, !Qle_bool_iff, Z.leb_le. auto.
Qed.

Lemma binom_cdf_valid (k n : Z) (p : Q) :
  (0 <= k)%Z -> (0 <= n)%Z -> 0 <= p -> p <= 1 ->
  binom_cdf k n p = Some (cdf_q k n p).
Proof.
  intros Hk Hn Hp0 Hp1. unfold binom_cdf, cdf_q.
  rewrite binom_argcheck_true by assumption.
  destruct (Z.ltb_spec k 0); [lia|].
  destruct (n <=? k)%Z; reflexivity.
Qed.

Lemma cdf_q_sum (k n : Z) (p : Q) :
  (0 <= k)%Z -> (0 <= n)%Z ->
  cdf_q k n p == sum_upto (pmf_nat p (Z.to_nat n)) (Z.to_nat k).
Proof.
  intros Hk Hn. unfold cdf_q.
  destruct (Z.leb_spec n k); [|reflexivity].
  symmetry. apply cdf_full. lia.
Qed.

Lemma cdf_q_antitone (k m n : Z) (p : Q) :
  (0 <= k)%Z -> (0 <= m <= n)%Z -> 0 <= p -> p <= 1 ->
  cdf_q k n p <= cdf_q k m p.
Proof.
  intros Hk Hmn Hp0 Hp1. rewrite !cdf_q_sum by lia.
  apply cdf_antitone; try assumption. lia.
Qed.

(** With a valid model every probability is a finite number. *)
Lemma prob_valid (cap : Z) (t : Q) (n : Z) :
  (0 <= cap)%Z -> 0 <= t -> t <= 1 -> (0 <= n)%Z ->
  calcular_prob_overbooking (new cap t) n = Some (1 - cdf_q cap n (1 - t)).
Proof.
  intros Hc Ht0 Ht1 Hn. unfold calcular_prob_overbooking, new. simpl.
  rewrite binom_cdf_valid by (try assumption; lra). reflexivity.
Qed.

Lemma prob_monotone (cap : Z) (t : Q) (m n : Z) :
  (0 <= cap)%Z -> 0 <= t -> t <= 1 -> (0 <= m <= n)%Z ->
  exists a b,
    calcular_prob_overbooking (new cap t) m = Some a /\
    calcular_prob_overbooking (new cap t) n = Some b /\
    a <= b.
Proof.
  intros Hc Ht0 Ht1 Hmn.
  exists (1 - cdf_q cap m (1 - t)), (1 - cdf_q cap n (1 - t)).
  rewrite !prob_valid by (try assumption; lia).
  repeat split.
  pose proof (cdf_q_antitone cap m n (1 - t) Hc Hmn) as H.
  assert (cdf_q cap n (1 - t) <= cdf_q cap m (1 - t)) by (apply H; lra).
  lra.
Qed.

Lemma prob_at_capacity (cap : Z) (t : Q) :
  (0 <= cap)%Z -> 0 <= t -> t <= 1 ->
  calcular_prob_overbooking (new cap t) cap = Some (1 - 1).
Proof.
  intros Hc Ht0 Ht1. rewrite prob_valid by (try assumption; lia).
  unfold cdf_q. rewrite Z.leb_refl. reflexivity.
Qed.

(** The tests of the loop, on finite probabilities. *)
Lemma np_gt_true_iff (x : npfloat) (y : Q) :
  np_gt x y = true <-> exists q, x = Some q /\ y < q.
Proof.
  destruct x as [q|]; simpl.
  - rewrite negb_true_iff. split.
    + intros H. exists q. split; [reflexivity|].
      apply Qnot_le_lt. intros Hle. apply Qle_bool_iff in Hle. congruence.
    + intros [q' [Hq Hlt]]. injection Hq as <-.
      destruct (Qle_bool q y) eqn:E; [|reflexivity].
      apply Qle_bool_iff in E. lra.
  - split; [discriminate | intros [q [H _]]; discriminate].
Qed.

Lemma np_gt_false_some (q y : Q) : np_gt (Some q) y = false <-> q <= y.
Proof.
  simpl. rewrite negb_false_iff. apply Qle_bool_iff.
Qed.

(** ** The scan of [encontrar_max_passagens] *)

(** The two ways the loop can end, over [range(a + s, a + s + len)]. *)
Lemma encontrar_loop_cases (self : t) (limite_risco : Q) (a : Z) (len : nat) :
  forall s : nat,
    let ns := map (fun i => (a + Z.of_nat i)%Z) (seq s len) in
    (encontrar_loop self limite_risco ns = None /\
     forall n, (a + Z.of_nat s <= n < a + Z.of_nat s + Z.of_nat len)%Z ->
               ~ exceeds self limite_risco n)
    \/
    (exists n,
        (a + Z.of_nat s <= n < a + Z.of_nat s + Z.of_nat len)%Z /\
        exceeds self limite_risco n /\
        (forall n', (a + Z.of_nat s <= n' < n)%Z ->
                    ~ exceeds self limite_risco n') /\
        encontrar_loop self limite_risco ns = Some (n - 1)%Z).
Proof.
  induction len as [|len IH]; intros s; simpl.
  - left. split; [reflexivity | intros n Hn; lia].
  - unfold exceeds in *.
    destruct (np_gt (calcular_prob_overbooking self (a + Z.of_nat s)) limite_risco)
      eqn:E.
    + right. exists (a + Z.of_nat s)%Z.
      repeat split; try lia; try assumption.
    + destruct (IH (S s)) as [[Hnone Hall] | [n [Hn [Hex [Hmin Hres]]]]].
      * left. split; [exact Hnone|].
        intros n Hn.
        destruct (Z.eq_dec n (a + Z.of_nat s)) as [-> | Hne].
        -- rewrite E. discriminate.
        -- apply Hall. lia.
      * right. exists n. repeat split; try lia; try assumption.
        intros n' Hn'.
        destruct (Z.eq_dec n' (a + Z.of_nat s)) as [-> | Hne].
        -- rewrite E. discriminate.
        -- apply Hmin. lia.
Qed.

(** The same for the method: either no visited count exceeds the limit and
    the capacity is returned, or the predecessor of the first that does. *)
Lemma encontrar_max_passagens_cases (self : t) (limite_risco : Q) :
  (encontrar_max_passagens self limite_risco = capacidade self /\
   forall n, in_scan_range self n -> ~ exceeds self limite_risco n)
  \/
  (exists n,
      in_scan_range self n /\
      exceeds self limite_risco n /\
      (forall n', (capacidade self <= n' < n)%Z ->
                  ~ exceeds self limite_risco n') /\
      encontrar_max_passagens self limite_risco = (n - 1)%Z).
Proof.
  unfold encontrar_max_passagens, py_range, in_scan_range.
  replace (Z.to_nat (capacidade self + 50 - capacidade self)) with 50%nat by lia.
  destruct (encontrar_loop_cases self limite_risco (capacidade self) 50 0)
    as [[Hnone Hall] | [n [Hn [Hex [Hmin Hres]]]]].
  - left. rewrite Hnone. split; [reflexivity|].
    intros n Hn. apply Hall. lia.
  - right. exists n. rewrite Hres.
    repeat split; try lia; try assumption.
    intros n' Hn'. apply Hmin. lia.
Qed.

(** ** Claims about the risk model *)

(** C7: for every capacity > 0 and every no-show rate in [0,1], the
    overbooking probability with exactly [capacidade] tickets sold is the
    number zero. *)
Theorem prob_overbooking_at_capacity_is_zero (cap : Z) (t : Q) :
  (0 < cap)%Z -> 0 <= t -> t <= 1 ->
  is_num (calcular_prob_overbooking (new cap t) cap) 0.
Proof.
  intros Hc Ht0 Ht1. rewrite prob_at_capacity by (try assumption; lia).
  simpl. ring.
Qed.

Lemma prob_overbooking_at_capacity_is_zero_witness :
  is_num (calcular_prob_overbooking (new 120 (12 # 100)) 120) 0.
Proof.
  apply (prob_overbooking_at_capacity_is_zero 120 (12 # 100));
    [lia | lra | lra].
Defined.

(** C8: for a fixed capacity > 0 and no-show rate in [0,1], the overbooking
    probability is a finite number at every ticket count [>= 0] and is
    non-decreasing in the ticket count. *)
Theorem prob_overbooking_monotone (cap : Z) (t : Q) (m n : Z) :
  (0 < cap)%Z -> 0 <= t -> t <= 1 -> (0 <= m <= n)%Z ->
  exists a b,
    calcular_prob_overbooking (new cap t) m = Some a /\
    calcular_prob_overbooking (new cap t) n = Some b /\
    a <= b.
Proof.
  intros Hc Ht0 Ht1 Hmn. apply prob_monotone; try assumption. lia.
Qed.

Lemma prob_overbooking_monotone_witness :
  exists a b,
    calcular_prob_overbooking (new 3 (1 # 4)) 4 = Some a /\
    calcular_prob_overbooking (new 3 (1 # 4)) 6 = Some b /\
    a <= b.
Proof.
  apply (prob_overbooking_monotone 3 (1 # 4) 4 6); [lia | lra | lra | lia].
Defined.

(** C1, as stated, fails for a negative risk limit: with capacity 120 the
    very first count visited already exceeds the limit -1, the method
    returns 119, and 119 is not a count of the scanned range. *)
Lemma encontrar_max_passagens_negative_limit :
  let self := new 120 (12 # 100) in
  (exists n, in_scan_range self n /\ exceeds self (-(1)) n) /\
  encontrar_max_passagens self (-(1)) = 119%Z /\
  ~ largest_within_risk self (-(1)) (encontrar_max_passagens self (-(1))).
Proof.
  assert (E : encontrar_max_passagens (new 120 (12 # 100)) (-(1)) = 119%Z)
    by (vm_compute; reflexivity).
  cbv zeta. split; [|split].
  - exists 120%Z. split; [unfold in_scan_range; simpl; lia|].
    unfold exceeds. vm_compute. reflexivity.
  - exact E.
  - rewrite E. intros [Hr _]. unfold in_scan_range in Hr. simpl in Hr. lia.
Qed.

(** C1 (amended): for every capacity > 0, no-show rate in [0,1] and risk
    limit >= 0: if some count of [capacidade .. capacidade + 49] exceeds
    the limit, the method returns the largest count of that range whose
    probability is within the limit; if none does, it returns the capacity;
    and in any case the result is [n - 1] for the first count [n] of the
    range, in increasing order, whose probability exceeds the limit. *)
Theorem encontrar_max_passagens_spec (cap : Z) (t limite_risco : Q) :
  (0 < cap)%Z -> 0 <= t -> t <= 1 -> 0 <= limite_risco ->
  let self := new cap t in
  let r := encontrar_max_passagens self limite_risco in
  ((exists n, in_scan_range self n /\ exceeds self limite_risco n) ->
   largest_within_risk self limite_risco r) /\
  ((forall n, in_scan_range self n -> ~ exceeds self limite_risco n) ->
   r = cap) /\
  (forall n,
      in_scan_range self n -> exceeds self limite_risco n ->
      (forall n', (cap <= n' < n)%Z -> ~ exceeds self limite_risco n') ->
      r = (n - 1)%Z).
Proof.
  intros Hc Ht0 Ht1 Hl self r.
  assert (Hcap : ~ exceeds self limite_risco cap).
  { unfold exceeds, self. rewrite prob_at_capacity by (try assumption; lia).
    intros H. apply np_gt_true_iff in H. destruct H as [q [Hq Hlt]].
    injection Hq as <-. lra. }
  destruct (encontrar_max_passagens_cases self limite_risco)
    as [[Hres Hall] | [n0 [Hn0 [Hex0 [Hmin0 Hres]]]]];
    fold r in Hres; change (capacidade self) with cap in *.
  - split; [|split].
    + intros [n [Hn Hex]]. exfalso. exact (Hall n Hn Hex).
    + intros _. exact Hres.
    + intros n Hn Hex _. exfalso. exact (Hall n Hn Hex).
  - unfold in_scan_range in Hn0. change (capacidade self) with cap in Hn0.
    assert (Hgt : (cap < n0)%Z).
    { destruct (Z.eq_dec n0 cap) as [-> | Hne]; [contradiction | lia]. }
    split; [|split].
    + intros _. rewrite Hres. unfold largest_within_risk, in_scan_range.
      change (capacidade self) with cap.
      split; [lia|]. split.
      * assert (Hnot : ~ exceeds self limite_risco (n0 - 1)) by (apply Hmin0; lia).
        unfold exceeds, self in Hnot. unfold self.
        rewrite prob_valid in * by (try assumption; lia).
        apply np_gt_false_some. apply not_true_is_false. exact Hnot.
      * intros n Hn Hle.
        destruct (Z.lt_ge_cases n n0) as [Hlt | Hge]; [lia|].
        exfalso.
        destruct (prob_monotone cap t n0 n) as [a [b [Ha [Hb Hab]]]];
          try assumption; try lia.
        unfold exceeds, self in Hex0. rewrite Ha in Hex0.
        apply np_gt_true_iff in Hex0. destruct Hex0 as [q [Hq Hlt]].
        injection Hq as <-.
        unfold self in Hle. rewrite Hb in Hle. simpl in Hle. lra.
    + intros Hall. exfalso. apply (Hall n0); [|exact Hex0].
      unfold in_scan_range. change (capacidade self) with cap. lia.
    + intros n Hn Hex Hmin. rewrite Hres.
      unfold in_scan_range in Hn. change (capacidade self) with cap in Hn.
      destruct (Z.lt_trichotomy n n0) as [Hlt | [Heq | Hlt]].
      * exfalso. apply (Hmin0 n); [lia | exact Hex].
      * subst n. reflexivity.
      * exfalso. apply (Hmin n0); [lia | exact Hex0].
Qed.

Lemma encontrar_max_passagens_spec_witness :
  let self := new 2 (1 # 2) in
  let r := encontrar_max_passagens self (1 # 10) in
  ((exists n, in_scan_range self n /\ exceeds self (1 # 10) n) ->
   largest_within_risk self (1 # 10) r) /\
  ((forall n, in_scan_range self n -> ~ exceeds self (1 # 10) n) ->
   r = 2%Z) /\
  (forall n,
      in_scan_range self n -> exceeds self (1 # 10) n ->
      (forall n', (2 <= n' < n)%Z -> ~ exceeds self (1 # 10) n') ->
      r = (n - 1)%Z).
Proof.
  apply (encontrar_max_passagens_spec 2 (1 # 2) (1 # 10));
    [lia | lra | lra | lra].
Defined.

(** C5, as stated, fails: a no-show rate of 2 is accepted. *)
Lemma init_accepts_rate_outside_unit_interval :
  ~ (forall cap t, t < 0 \/ 1 < t -> exists e, init cap t = Raise e).
Proof.
  intros H. destruct (H 120%Z 2) as [e He].
  - right. reflexivity.
  - discriminate He.
Qed.

(** C5 (amended): construction never fails and never clamps: for every
    no-show rate, inside [0,1] or not, it yields a model holding the given
    capacity, the given rate unchanged and [1 - rate] as show probability. *)
Theorem init_stores_rate_unchanged (cap : Z) (t : Q) :
  exists m,
    init cap t = Ok m /\
    capacidade m = cap /\
    taxa_no_show m = t /\
    prob_comparecimento m = 1 - t.
Proof.
  exists (new cap t). repeat split.
Qed.

(** ** The financial analysis *)

Lemma np_eq_trans (x y z : npfloat) : np_eq x y -> np_eq y z -> np_eq x z.
Proof.
  destruct x, y, z; simpl; try tauto. intros H1 H2. rewrite H1. exact H2.
Qed.

Lemma np_add_assoc (x y z : npfloat) :
  np_eq (np_add (np_add x y) z) (np_add x (np_add y z)).
Proof. destruct x, y, z; simpl; try exact I. ring. Qed.

(** The accumulating loop adds the sum of its terms to its start value. *)
Lemma excesso_loop_sum (self : t) (total : Z) (ks : list Z) :
  forall acc : npfloat,
    np_eq (fold_left (excesso_step self total) ks acc)
          (np_add acc
             (fold_right
                (fun k rest =>
                   np_add (np_mul (binom_pmf k total (prob_comparecimento self))
                                  (Some (inject_Z (k - capacidade self))))
                          rest)
                (Some 0) ks)).
Proof.
  induction ks as [|k ks IH]; intros acc; simpl.
  - destruct acc; simpl; [ring | exact I].
  - eapply np_eq_trans; [apply IH|].
    unfold excesso_step. apply np_add_assoc.
Qed.

Lemma valor_esperado_excesso_is_sum (self : t) (passagens_extra : Z) :
  np_eq (valor_esperado_excesso self passagens_extra)
        (expected_excess_sum self passagens_extra).
Proof.
  unfold valor_esperado_excesso, expected_excess_sum.
  eapply np_eq_trans; [apply excesso_loop_sum|].
  match goal with |- np_eq (np_add (Some 0) ?x) _ => destruct x end;
    simpl; [ring | exact I].
Qed.

Lemma np_mul_eq_compat_r (x y z : npfloat) :
  np_eq x y -> np_eq (np_mul x z) (np_mul y z).
Proof.
  destruct x, y, z; simpl; try tauto. intros H. rewrite H. reflexivity.
Qed.

Lemma np_sub_eq_compat_l (x y z : npfloat) :
  np_eq y z -> np_eq (np_sub x y) (np_sub x z).
Proof.
  destruct x, y, z; simpl; try tauto. intros H. rewrite H. reflexivity.
Qed.

(** C9: for every number of extra tickets >= 0, ticket price and
    compensation cost, with [total = capacidade + passagens_extra] and
    the expected excess being the sum over [k] from [capacidade + 1] to
    [total] of the mass of [k] times [k - capacidade]: the loop computes
    that sum; the additional revenue is extra tickets times price; the
    expected cost is the expected excess times the compensation cost; the
    expected profit is revenue minus cost; the probability returned is the
    overbooking probability of [total]; and with no extra ticket the sum is
    empty and the expected excess is zero. *)
Theorem analise_financeira_spec (self : t) (passagens_extra : Z)
    (preco_passagem custo_indenizacao : Q) :
  (0 <= passagens_extra)%Z ->
  let r := analise_financeira self passagens_extra preco_passagem
             custo_indenizacao in
  let excess := expected_excess_sum self passagens_extra in
  np_eq (valor_esperado_excesso self passagens_extra) excess /\
  receita_adicional r == inject_Z passagens_extra * preco_passagem /\
  np_eq (custo_esperado r) (np_mul excess (Some custo_indenizacao)) /\
  np_eq (lucro_esperado r)
        (np_sub (Some (inject_Z passagens_extra * preco_passagem))
                (np_mul excess (Some custo_indenizacao))) /\
  prob_overbooking r =
    calcular_prob_overbooking self (capacidade self + passagens_extra) /\
  (passagens_extra = 0%Z ->
   excess = Some 0 /\ valor_esperado_excesso self passagens_extra = Some 0).
Proof.
  intros Hextra r excess.
  pose proof (valor_esperado_excesso_is_sum self passagens_extra) as Hsum.
  fold excess in Hsum.
  split; [exact Hsum|]. split; [reflexivity|].
  split; [apply np_mul_eq_compat_r; exact Hsum|].
  split; [apply np_sub_eq_compat_l, np_mul_eq_compat_r; exact Hsum|].
  split; [reflexivity|].
  intros ->. unfold excess, expected_excess_sum, valor_esperado_excesso, py_range.
  replace (Z.to_nat (capacidade self + 0 + 1 - (capacidade self + 1))) with O
    by lia.
  split; reflexivity.
Qed.

Lemma analise_financeira_spec_witness :
  let self := new 3 (1 # 4) in
  let r := analise_financeira self 2 500 1200 in
  let excess := expected_excess_sum self 2 in
  np_eq (valor_esperado_excesso self 2) excess /\
  receita_adicional r == inject_Z 2 * 500 /\
  np_eq (custo_esperado r) (np_mul excess (Some 1200)) /\
  np_eq (lucro_esperado r)
        (np_sub (Some (inject_Z 2 * 500)) (np_mul excess (Some 1200))) /\
  prob_overbooking r = calcular_prob_overbooking self (capacidade self + 2) /\
  (2%Z = 0%Z ->
   excess = Some 0 /\ valor_esperado_excesso self 2 = Some 0).
Proof.
  apply (analise_financeira_spec (new 3 (1 # 4)) 2 500 1200). lia.
Defined.

End OverbookingFacts.

(** ** [ROIAnalyzer] *)

Module ROIFacts.
Import ROIAnalyzer.

Lemma Qeq_bool_false (x y : Q) : ~ x == y -> Qeq_bool x y = false.
Proof.
  intros H. destruct (Qeq_bool x y) eqn:E; [|reflexivity].
  apply Qeq_bool_iff in E. contradiction.
Qed.

Lemma py_div_nonzero (x y : Q) : ~ y == 0 -> py_div x y = Ok (x / y).
Proof. intros H. unfold py_div. rewrite Qeq_bool_false by exact H. reflexivity. Qed.

Lemma py_div_zero (x y : Q) : y == 0 -> py_div x y = Raise ZeroDivisionError.
Proof.
  intros H. unfold py_div. apply Qeq_bool_iff in H. rewrite H. reflexivity.
Qed.

(** C4: with a non-zero investment, [calcular_roi] returns
    [(receita - custo_operacional) / investimento * 100], where [receita]
    is the argument when it is given and not zero and [receita_esperada]
    when it is absent or zero; with investment 50000, expected revenue
    80000 and operating cost 10000 and no argument, the result is 140. *)
Theorem calcular_roi_spec :
  (forall self : t,
      ~ investimento self == 0 ->
      let expected :=
        (receita_esperada self - custo_operacional self) / investimento self
        * 100 in
      ok_num (calcular_roi self None) expected /\
      (forall r, r == 0 -> ok_num (calcular_roi self (Some r)) expected) /\
      (forall r, ~ r == 0 ->
                 ok_num (calcular_roi self (Some r))
                        ((r - custo_operacional self) / investimento self * 100)))
  /\ ok_num (calcular_roi (mk 50000 80000 10000) None) 140.
Proof.
  split.
  - intros self Hinv expected. unfold calcular_roi.
    split; [|split].
    + rewrite py_div_nonzero by exact Hinv. simpl. reflexivity.
    + intros r Hr. unfold py_truthy.
      apply Qeq_bool_iff in Hr. rewrite Hr. simpl negb. cbv iota.
      rewrite py_div_nonzero by exact Hinv. simpl. reflexivity.
    + intros r Hr. unfold py_truthy.
      rewrite (Qeq_bool_false r 0 Hr). simpl negb. cbv iota.
      rewrite py_div_nonzero by exact Hinv. simpl. reflexivity.
  - vm_compute. reflexivity.
Qed.

Lemma calcular_roi_spec_witness :
  let self := mk 50000 80000 10000 in
  let expected :=
    (receita_esperada self - custo_operacional self) / investimento self * 100 in
  ok_num (calcular_roi self None) expected /\
  (forall r, r == 0 -> ok_num (calcular_roi self (Some r)) expected) /\
  (forall r, ~ r == 0 ->
             ok_num (calcular_roi self (Some r))
                    ((r - custo_operacional self) / investimento self * 100)).
Proof.
  apply (proj1 calcular_roi_spec (mk 50000 80000 10000)).
  simpl. intros H. discriminate H.
Defined.

(** C6: with a zero investment, [calcular_roi] raises
    [ZeroDivisionError], whatever its argument; no number is returned. *)
Theorem calcular_roi_zero_investment (self : t) (receita_real : option Q) :
  investimento self == 0 ->
  calcular_roi self receita_real = Raise ZeroDivisionError.
Proof.
  intros Hinv. unfold calcular_roi.
  rewrite py_div_zero by exact Hinv. reflexivity.
Qed.

Lemma calcular_roi_zero_investment_witness :
  calcular_roi (mk 0 80000 10000) (Some 56000) = Raise ZeroDivisionError.
Proof.
  apply (calcular_roi_zero_investment (mk 0 80000 10000) (Some 56000)).
  reflexivity.
Defined.

(** ** The Monte Carlo simulation *)

Lemma clip01_bounds (x : Q) : 0 <= clip01 x /\ clip01 x <= 1.
Proof.
  unfold clip01. split.
  - apply Q.min_glb; [|lra]. apply Q.le_max_r.
  - apply Q.le_min_r.
Qed.

Lemma clip01_cases (x : Q) :
  (x < 0 -> clip01 x == 0) /\
  (1 < x -> clip01 x == 1) /\
  (0 <= x -> x <= 1 -> clip01 x == x).
Proof.
  unfold clip01. split; [|split].
  - intros H. rewrite Q.max_r by lra. apply Q.min_l. lra.
  - intros H. rewrite Q.max_l by lra. apply Q.min_r. lra.
  - intros H0 H1. rewrite Q.max_l by lra. apply Q.min_l. lra.
Qed.

Lemma nth_map_lt {A B : Type} (f : A -> B) (l : list A) (i : nat) (d : A) (d' : B) :
  (i < length l)%nat -> nth i (map f l) d' = f (nth i l d).
Proof.
  revert i. induction l as [|a l IH]; intros i Hi; simpl in *; [lia|].
  destruct i as [|i]; [reflexivity|]. apply IH. lia.
Qed.

Section MonteCarloFacts.

Variable rng_state : Type.
Variable np_random_seed : Z -> rng_state.
Variable gauss : rng_state -> Q * rng_state.

Lemma draw_normal_length (loc scale : Q) (size : nat) :
  forall g, length (fst (draw_normal rng_state gauss loc scale size g)) = size.
Proof.
  induction size as [|size IH]; intros g; simpl; [reflexivity|].
  destruct (gauss g) as [z g1].
  specialize (IH g1).
  destruct (draw_normal rng_state gauss loc scale size g1) as [xs g2].
  simpl in *. congruence.
Qed.

(** What a successful run returns. *)
Lemma simulacao_monte_carlo_ok (self : t) (n : Z) (mu sd : Q)
    (g g' : rng_state) (res : simulacao) :
  simulacao_monte_carlo rng_state np_random_seed gauss self n mu sd g
    = (Ok res, g') ->
  let drawn :=
    fst (draw_normal rng_state gauss mu sd (Z.to_nat n) (np_random_seed 42)) in
  performances res = map clip01 drawn /\
  receitas res = map (fun p => p * receita_esperada self) (performances res) /\
  rois res =
    map (fun receita =>
           np_mul (np_div (Some (receita - custo_operacional self))
                          (investimento self))
                  (Some 100))
        (receitas res).
Proof.
  unfold simulacao_monte_carlo, np_random_normal. intros H.
  destruct (Qle_bool 0 sd && (0 <=? n)%Z).
  - destruct (draw_normal rng_state gauss mu sd (Z.to_nat n) (np_random_seed 42))
      as [xs g2].
    injection H as <- _. simpl. repeat split.
  - discriminate H.
Qed.

(** When a run is successful. *)
Lemma simulacao_monte_carlo_returns (self : t) (n : Z) (mu sd : Q)
    (g : rng_state) :
  (0 <= n)%Z -> 0 <= sd ->
  exists res g',
    simulacao_monte_carlo rng_state np_random_seed gauss self n mu sd g
      = (Ok res, g').
Proof.
  intros Hn Hsd. unfold simulacao_monte_carlo, np_random_normal.
  apply Qle_bool_iff in Hsd. apply Z.leb_le in Hn. rewrite Hsd, Hn. simpl.
  destruct (draw_normal rng_state gauss mu sd (Z.to_nat n) (np_random_seed 42))
    as [xs g2].
  eexists. eexists. reflexivity.
Qed.

(** C10: for every sample count >= 0, mean and standard deviation, a
    result returned by [simulacao_monte_carlo] has three sequences of
    length [n_simulacoes]; the performance at each index is the sample
    drawn at that index (by the generator reseeded with 42) clipped to
    [0,1]: 0 when the sample is below 0, 1 when it is above 1, the sample
    itself otherwise; every performance lies in [0,1];
    and at every index the revenue is the performance times the expected
    revenue and the ROI is [(revenue - custo_operacional) / investimento
    * 100].  A result is returned whenever the standard deviation is not
    negative. *)
Theorem simulacao_monte_carlo_spec (self : t) (n : Z) (mu sd : Q)
    (g : rng_state) :
  (0 <= n)%Z ->
  (0 <= sd ->
   exists res g',
     simulacao_monte_carlo rng_state np_random_seed gauss self n mu sd g
       = (Ok res, g')) /\
  (forall res g',
      simulacao_monte_carlo rng_state np_random_seed gauss self n mu sd g
        = (Ok res, g') ->
      length (performances res) = Z.to_nat n /\
      length (receitas res) = Z.to_nat n /\
      length (rois res) = Z.to_nat n /\
      (let drawn :=
         fst (draw_normal rng_state gauss mu sd (Z.to_nat n)
                (np_random_seed 42)) in
       length drawn = Z.to_nat n /\
       forall i, (i < Z.to_nat n)%nat ->
         let x := nth i drawn 0 in
         let p := nth i (performances res) 0 in
         (x < 0 -> p == 0) /\
         (1 < x -> p == 1) /\
         (0 <= x -> x <= 1 -> p == x)) /\
      (forall p, In p (performances res) -> 0 <= p /\ p <= 1) /\
      (forall i, (i < Z.to_nat n)%nat ->
         nth i (receitas res) 0
           = nth i (performances res) 0 * receita_esperada self /\
         nth i (rois res) None
           = np_mul (np_div (Some (nth i (receitas res) 0
                                   - custo_operacional self))
                            (investimento self))
                    (Some 100) /\
         (~ investimento self == 0 ->
          is_num (nth i (rois res) None)
                 ((nth i (receitas res) 0 - custo_operacional self)
                  / investimento self * 100)))).
Proof.
  intros Hn. split.
  - intros Hsd. apply simulacao_monte_carlo_returns; assumption.
  - intros res g' Hrun.
    destruct (simulacao_monte_carlo_ok self n mu sd g g' res Hrun)
      as [Hperf [Hrec Hroi]].
    assert (Lp : length (performances res) = Z.to_nat n)
      by (rewrite Hperf, length_map; apply draw_normal_length).
    assert (Lr : length (receitas res) = Z.to_nat n)
      by (rewrite Hrec, length_map; exact Lp).
    assert (Lo : length (rois res) = Z.to_nat n)
      by (rewrite Hroi, length_map; exact Lr).
    repeat (split; [assumption|]).
    split; [|split].
    + cbv zeta. split; [apply draw_normal_length|].
      intros i Hi. rewrite Hperf.
      rewrite (nth_map_lt clip01 _ i 0 0)
        by (rewrite draw_normal_length; exact Hi).
      apply clip01_cases.
    + intros p Hp. rewrite Hperf in Hp. apply in_map_iff in Hp.
      destruct Hp as [x [<- _]]. apply clip01_bounds.
    + intros i Hi.
      assert (Erec : nth i (receitas res) 0
                     = nth i (performances res) 0 * receita_esperada self).
      { rewrite Hrec at 1.
        apply (nth_map_lt (fun p => p * receita_esperada self)). lia. }
      assert (Eroi : nth i (rois res) None
                     = np_mul (np_div (Some (nth i (receitas res) 0
                                             - custo_operacional self))
                                      (investimento self))
                              (Some 100)).
      { rewrite Hroi at 1.
        apply (nth_map_lt
                 (fun receita =>
                    np_mul (np_div (Some (receita - custo_operacional self))
                                   (investimento self))
                           (Some 100))).
        lia. }
      split; [exact Erec|]. split; [exact Eroi|].
      intros Hinv. rewrite Eroi. unfold np_div.
      rewrite (Qeq_bool_false _ _ Hinv). simpl. reflexivity.
Qed.

(** C2: the simulation reseeds the generator with 42, so its result (and
    the state it leaves) does not depend on the state of the generator at
    the call: two calls on models with equal fields and equal arguments
    agree from any two generator states, and so do two presses of the
    button with any two seeds typed by the user. *)
Theorem simulacao_monte_carlo_ignores_seed (self1 self2 : t) (n : Z)
    (mu sd : Q) :
  receita_esperada self1 = receita_esperada self2 ->
  custo_operacional self1 = custo_operacional self2 ->
  investimento self1 = investimento self2 ->
  (forall g1 g2 : rng_state,
      simulacao_monte_carlo rng_state np_random_seed gauss self1 n mu sd g1
      = simulacao_monte_carlo rng_state np_random_seed gauss self2 n mu sd g2)
  /\
  (forall (seed1 seed2 : Z) (g1 g2 : rng_state),
      executar_simulacao rng_state np_random_seed gauss self1 seed1 n mu sd g1
      = executar_simulacao rng_state np_random_seed gauss self2 seed2 n mu sd g2).
Proof.
  intros Hr Hc Hi.
  assert (E : forall g1 g2 : rng_state,
             simulacao_monte_carlo rng_state np_random_seed gauss self1 n mu sd g1
             = simulacao_monte_carlo rng_state np_random_seed gauss self2 n mu sd g2).
  { intros g1 g2. unfold simulacao_monte_carlo. rewrite Hr, Hc, Hi. reflexivity. }
  split; [exact E|].
  intros seed1 seed2 g1 g2. unfold executar_simulacao. apply E.
Qed.

(** C3: pressing the button twice with the same seed and the same other
    parameters gives the same three sequences, whatever state the first
    run (or anything else) left the generator in; likewise for two direct
    calls of [simulacao_monte_carlo] in a row. *)
Theorem simulacao_monte_carlo_reproducible (self : t) (seed n : Z)
    (mu sd : Q) (g0 : rng_state) :
  let run := executar_simulacao rng_state np_random_seed gauss self seed n mu sd in
  let call := simulacao_monte_carlo rng_state np_random_seed gauss self n mu sd in
  fst (run (snd (run g0))) = fst (run g0) /\
  fst (call (snd (call g0))) = fst (call g0) /\
  (forall g g' : rng_state, fst (run g) = fst (run g')).
Proof.
  cbv zeta. unfold executar_simulacao, simulacao_monte_carlo.
  repeat split.
Qed.

End MonteCarloFacts.

(** Runs on the toy generator. *)
Lemma simulacao_monte_carlo_spec_witness :
  (0 <= 3)%Z /\
  exists res g',
    simulacao_monte_carlo Toy.state Toy.seed Toy.gauss
      (mk 50000 80000 10000) 3 (3 # 4) (15 # 100) 7%Z = (Ok res, g').
Proof.
  split; [lia|].
  apply (proj1 (simulacao_monte_carlo_spec Toy.state Toy.seed Toy.gauss
                  (mk 50000 80000 10000) 3 (3 # 4) (15 # 100) 7%Z
                  ltac:(lia))).
  lra.
Defined.

Lemma simulacao_monte_carlo_ignores_seed_witness :
  simulacao_monte_carlo Toy.state Toy.seed Toy.gauss
    (mk 50000 80000 10000) 3 (3 # 4) (15 # 100) (Toy.seed 1)
  = simulacao_monte_carlo Toy.state Toy.seed Toy.gauss
    (mk 50000 80000 10000) 3 (3 # 4) (15 # 100) (Toy.seed 1000).
Proof.
  apply (proj1 (simulacao_monte_carlo_ignores_seed Toy.state Toy.seed Toy.gauss
                  (mk 50000 80000 10000) (mk 50000 80000 10000)
                  3 (3 # 4) (15 # 100) eq_refl eq_refl eq_refl)).
Defined.

End ROIFacts.

(** * Further properties of the code *)

(** ** The overbooking probability *)

Module OverbookingMore.
Import OverbookingAnalyzer OverbookingFacts.

Lemma sum_upto_nonneg (f : nat -> Q) (k : nat) :
  (forall i, 0 <= f i) -> 0 <= sum_upto f k.
Proof.
  intros Hf. induction k as [|k IH]; simpl; [apply Hf|].
  pose proof (Hf (S k)). lra.
Qed.

Lemma cdf_q_bounds (k n : Z) (p : Q) :
  (0 <= k)%Z -> (0 <= n)%Z -> 0 <= p -> p <= 1 ->
  0 <= cdf_q k n p /\ cdf_q k n p <= 1.
Proof.
  intros Hk Hn Hp0 Hp1. rewrite cdf_q_sum by assumption. split.
  - apply sum_upto_nonneg. intros i. apply pmf_nat_nonneg; assumption.
  - apply cdf_le_1; assumption.
Qed.

(** X1: the overbooking probability of a valid model is a probability. *)
Theorem prob_overbooking_in_unit_interval (cap : Z) (t : Q) (n : Z) :
  (0 <= cap)%Z -> 0 <= t -> t <= 1 -> (0 <= n)%Z ->
  exists q,
    calcular_prob_overbooking (new cap t) n = Some q /\ 0 <= q /\ q <= 1.
Proof.
  intros Hc Ht0 Ht1 Hn. exists (1 - cdf_q cap n (1 - t)).
  rewrite prob_valid by assumption. split; [reflexivity|].
  destruct (cdf_q_bounds cap n (1 - t)) as [H0 H1]; try assumption; lra.
Qed.

Lemma prob_overbooking_in_unit_interval_witness :
  exists q,
    calcular_prob_overbooking (new 3 (1 # 4)) 5 = Some q /\ 0 <= q /\ q <= 1.
Proof.
  apply (prob_overbooking_in_unit_interval 3 (1 # 4) 5); [lia | lra | lra | lia].
Defined.

(** X2: selling no more tickets than seats can never overbook. *)
Theorem prob_overbooking_zero_up_to_capacity (cap : Z) (t : Q) (n : Z) :
  0 <= t -> t <= 1 -> (0 <= n <= cap)%Z ->
  is_num (calcular_prob_overbooking (new cap t) n) 0.
Proof.
  intros Ht0 Ht1 Hn. rewrite prob_valid by (try assumption; lia).
  unfold cdf_q. destruct (Z.leb_spec n cap); [|lia]. simpl. ring.
Qed.

Lemma prob_overbooking_zero_up_to_capacity_witness :
  is_num (calcular_prob_overbooking (new 120 (12 # 100)) 100) 0.
Proof.
  apply (prob_overbooking_zero_up_to_capacity 120 (12 # 100) 100);
    [lra | lra | lia].
Defined.

(** Above 1 the rate leaves no valid show probability, and a negative
    ticket count is no valid number of trials. *)
Lemma prob_nan (cap : Z) (t : Q) (n : Z) :
  1 < t \/ (n < 0)%Z ->
  calcular_prob_overbooking (new cap t) n = None.
Proof.
  intros H. unfold calcular_prob_overbooking, new, binom_cdf, binom_argcheck.
  simpl.
  assert (E : ((0 <=? n)%Z && Qle_bool 0 (1 - t) && Qle_bool (1 - t) 1)%bool
              = false).
  { destruct H as [H | H].
    - assert (F : Qle_bool 0 (1 - t) = false).
      { destruct (Qle_bool 0 (1 - t)) eqn:E; [|reflexivity].
        apply Qle_bool_iff in E. lra. }
      rewrite F. rewrite andb_false_r. reflexivity.
    - destruct (Z.leb_spec 0 n); [lia | reflexivity]. }
  rewrite E. reflexivity.
Qed.

(** X3: a no-show rate above 1 or a negative ticket count gives [nan],
    not an exception. *)
Theorem prob_overbooking_nan (cap : Z) (t : Q) (n : Z) :
  1 < t \/ (n < 0)%Z ->
  calcular_prob_overbooking (new cap t) n = None.
Proof. apply prob_nan. Qed.

Lemma prob_overbooking_nan_witness :
  calcular_prob_overbooking (new 120 (3 # 2)) 130 = None.
Proof.
  apply (prob_overbooking_nan 120 (3 # 2) 130). left. reflexivity.
Defined.

(** X4: with a no-show rate above 1 every comparison of the scan is
    against [nan] and is false, so the capacity is returned whatever the
    limit. *)
Theorem encontrar_max_passagens_invalid_rate (cap : Z) (t limite_risco : Q) :
  1 < t ->
  encontrar_max_passagens (new cap t) limite_risco = cap.
Proof.
  intros Ht.
  destruct (encontrar_max_passagens_cases (new cap t) limite_risco)
    as [[Hres _] | [n [_ [Hex _]]]]; [exact Hres|].
  unfold exceeds in Hex. rewrite prob_nan in Hex by tauto.
  discriminate Hex.
Qed.

Lemma encontrar_max_passagens_invalid_rate_witness :
  encontrar_max_passagens (new 120 (3 # 2)) (-(1)) = 120%Z.
Proof.
  apply (encontrar_max_passagens_invalid_rate 120 (3 # 2) (-(1))).
  reflexivity.
Defined.

(** X5: whatever the model and the limit, the result lies between
    [capacidade - 1] and [capacidade + 48]: the last count visited,
    [capacidade + 49], is never returned. *)
Theorem encontrar_max_passagens_bounds (self : t) (limite_risco : Q) :
  (capacidade self - 1 <= encontrar_max_passagens self limite_risco
   <= capacidade self + 48)%Z.
Proof.
  destruct (encontrar_max_passagens_cases self limite_risco)
    as [[Hres _] | [n [Hn [_ [_ Hres]]]]]; rewrite Hres.
  - lia.
  - unfold in_scan_range in Hn. lia.
Qed.

(** X6: for a valid model and a limit >= 0 the result is at least the
    capacity and its own overbooking probability is within the limit. *)
Theorem encontrar_max_passagens_within_limit (cap : Z) (t limite_risco : Q) :
  (0 <= cap)%Z -> 0 <= t -> t <= 1 -> 0 <= limite_risco ->
  let r := encontrar_max_passagens (new cap t) limite_risco in
  (cap <= r)%Z /\
  np_le (calcular_prob_overbooking (new cap t) r) limite_risco.
Proof.
  intros Hc Ht0 Ht1 Hl r.
  assert (Hcap : np_le (calcular_prob_overbooking (new cap t) cap) limite_risco).
  { rewrite prob_at_capacity by assumption. simpl. lra. }
  destruct (encontrar_max_passagens_cases (new cap t) limite_risco)
    as [[Hres _] | [n [Hn [Hex [Hmin Hres]]]]]; fold r in Hres;
    change (capacidade (new cap t)) with cap in *.
  - rewrite Hres. split; [lia | exact Hcap].
  - unfold in_scan_range in Hn. change (capacidade (new cap t)) with cap in Hn.
    assert (Hgt : (cap < n)%Z).
    { destruct (Z.eq_dec n cap) as [-> | Hne]; [|lia].
      exfalso. unfold exceeds in Hex.
      rewrite prob_at_capacity in Hex by assumption.
      apply np_gt_true_iff in Hex. destruct Hex as [q [Hq Hlt]].
      injection Hq as <-. lra. }
    rewrite Hres. split; [lia|].
    assert (Hnot : ~ exceeds (new cap t) limite_risco (n - 1))
      by (apply Hmin; lia).
    unfold exceeds in Hnot.
    rewrite prob_valid in * by (try assumption; lia).
    apply np_gt_false_some. apply not_true_is_false. exact Hnot.
Qed.

Lemma encontrar_max_passagens_within_limit_witness :
  let r := encontrar_max_passagens (new 2 (1 # 2)) (1 # 10) in
  (2 <= r)%Z /\
  np_le (calcular_prob_overbooking (new 2 (1 # 2)) r) (1 # 10).
Proof.
  apply (encontrar_max_passagens_within_limit 2 (1 # 2) (1 # 10));
    [lia | lra | lra | lra].
Defined.

Lemma np_gt_antitone (x : npfloat) (l1 l2 : Q) :
  l1 <= l2 -> np_gt x l2 = true -> np_gt x l1 = true.
Proof.
  intros Hl H. apply np_gt_true_iff in H. destruct H as [q [-> Hq]].
  apply np_gt_true_iff. exists q. split; [reflexivity | lra].
Qed.

(** X7: a larger limit never lowers the result, as long as some visited
    count still exceeds the larger limit. *)
Theorem encontrar_max_passagens_monotone (self : t) (l1 l2 : Q) :
  l1 <= l2 ->
  (exists n, in_scan_range self n /\ exceeds self l2 n) ->
  (encontrar_max_passagens self l1 <= encontrar_max_passagens self l2)%Z.
Proof.
  intros Hl [n [Hn Hex]].
  destruct (encontrar_max_passagens_cases self l2)
    as [[_ Hall] | [n2 [Hn2 [Hex2 [Hmin2 Hres2]]]]].
  { exfalso. exact (Hall n Hn Hex). }
  destruct (encontrar_max_passagens_cases self l1)
    as [[_ Hall] | [n1 [Hn1 [Hex1 [Hmin1 Hres1]]]]].
  { exfalso. apply (Hall n2 Hn2). unfold exceeds in *.
    apply (np_gt_antitone _ l1 l2); assumption. }
  rewrite Hres1, Hres2.
  destruct (Z.le_gt_cases n1 n2) as [Hle | Hgt]; [lia|].
  exfalso. apply (Hmin1 n2).
  - unfold in_scan_range in Hn2. lia.
  - unfold exceeds in *. apply (np_gt_antitone _ l1 l2); assumption.
Qed.

Lemma encontrar_max_passagens_monotone_witness :
  (encontrar_max_passagens (new 2 (1 # 2)) (1 # 10)
   <= encontrar_max_passagens (new 2 (1 # 2)) (1 # 5))%Z.
Proof.
  apply (encontrar_max_passagens_monotone (new 2 (1 # 2)) (1 # 10) (1 # 5)).
  - lra.
  - exists 4%Z. split.
    + unfold in_scan_range. simpl. lia.
    + vm_compute. reflexivity.
Defined.

(** X8: a limit of 1 or more cannot be exceeded: the scan runs to its end and
    the capacity is returned, not the last count visited. *)
Theorem encontrar_max_passagens_limit_at_least_one (cap : Z) (t limite_risco : Q) :
  (0 <= cap)%Z -> 0 <= t -> t <= 1 -> 1 <= limite_risco ->
  encontrar_max_passagens (new cap t) limite_risco = cap.
Proof.
  intros Hc Ht0 Ht1 Hl.
  destruct (encontrar_max_passagens_cases (new cap t) limite_risco)
    as [[Hres _] | [n [Hn [Hex _]]]]; [exact Hres|].
  exfalso. unfold in_scan_range in Hn.
  change (capacidade (new cap t)) with cap in Hn.
  destruct (prob_overbooking_in_unit_interval cap t n) as [q [Hq [_ Hq1]]];
    try assumption; try lia.
  unfold exceeds in Hex. rewrite Hq in Hex.
  apply np_gt_true_iff in Hex. destruct Hex as [q' [E Hlt]].
  injection E as <-. lra.
Qed.

Lemma encontrar_max_passagens_limit_at_least_one_witness :
  encontrar_max_passagens (new 120 (12 # 100)) 1 = 120%Z.
Proof.
  apply (encontrar_max_passagens_limit_at_least_one 120 (12 # 100) 1);
    [lia | lra | lra | lra].
Defined.

(** *** The two extreme rates *)

Lemma sum_upto_zero (f : nat -> Q) (k : nat) :
  (forall i, (i <= k)%nat -> f i == 0) -> sum_upto f k == 0.
Proof.
  induction k as [|k IH]; intros H; simpl.
  - apply H. lia.
  - rewrite IH by (intros i Hi; apply H; lia).
    rewrite (H (S k)) by lia. ring.
Qed.

Lemma pmf_nat_sure_success (p : Q) (n k : nat) :
  p == 1 -> (k < n)%nat -> pmf_nat p n k == 0.
Proof.
  intros Hp Hk. unfold pmf_nat.
  destruct (Nat.leb_spec k n); [|reflexivity].
  replace (n - k)%nat with (S (n - S k)) by lia.
  simpl Qpow.
  set (a := Qpow p k). set (b := Qpow (1 - p) (n - S k)).
  rewrite Hp. ring.
Qed.

Lemma cdf_sure_failure (p : Q) (c n : nat) :
  p == 0 -> sum_upto (pmf_nat p n) c == 1.
Proof.
  intros Hp. induction n as [|n IH].
  - apply cdf_full. lia.
  - rewrite cdf_step, IH. set (m := pmf_nat p n c). rewrite Hp. ring.
Qed.

(** X9: when every passenger shows up (rate 0), any sale above the capacity
    overbooks for sure, and no limit below 1 allows an extra ticket. *)
Theorem full_attendance (cap : Z) (t : Q) :
  (0 <= cap)%Z -> t == 0 ->
  (forall n, (cap < n)%Z ->
             is_num (calcular_prob_overbooking (new cap t) n) 1) /\
  (forall limite_risco,
      0 <= limite_risco -> limite_risco < 1 ->
      encontrar_max_passagens (new cap t) limite_risco = cap).
Proof.
  intros Hc Ht.
  assert (Hprob : forall n, (cap < n)%Z ->
            is_num (calcular_prob_overbooking (new cap t) n) 1).
  { intros n Hn. rewrite prob_valid by (try lra; lia).
    unfold cdf_q. destruct (Z.leb_spec n cap); [lia|]. simpl.
    rewrite sum_upto_zero; [ring|].
    intros i Hi. apply pmf_nat_sure_success; [lra | lia]. }
  split; [exact Hprob|].
  intros limite_risco Hl0 Hl1.
  destruct (encontrar_max_passagens_cases (new cap t) limite_risco)
    as [[Hres _] | [n [Hn [Hex [Hmin Hres]]]]]; [exact Hres|].
  rewrite Hres. unfold in_scan_range in Hn.
  change (capacidade (new cap t)) with cap in *.
  assert (Hne : n <> cap).
  { intros ->. unfold exceeds in Hex.
    rewrite prob_at_capacity in Hex by (try lra; assumption).
    apply np_gt_true_iff in Hex. destruct Hex as [q [E Hlt]].
    injection E as <-. lra. }
  destruct (Z.eq_dec n (cap + 1)) as [-> | Hne1]; [lia|].
  exfalso. apply (Hmin (cap + 1)%Z); [lia|].
  unfold exceeds. specialize (Hprob (cap + 1)%Z ltac:(lia)).
  destruct (calcular_prob_overbooking (new cap t) (cap + 1)) as [q|];
    simpl in Hprob; [|contradiction].
  apply np_gt_true_iff. exists q. split; [reflexivity | lra].
Qed.

Lemma full_attendance_witness :
  (forall n, (120 < n)%Z ->
             is_num (calcular_prob_overbooking (new 120 0) n) 1) /\
  (forall limite_risco,
      0 <= limite_risco -> limite_risco < 1 ->
      encontrar_max_passagens (new 120 0) limite_risco = 120%Z).
Proof.
  apply (full_attendance 120 0); [lia | reflexivity].
Defined.

(** X10: when no passenger shows up (rate 1), no number of tickets overbooks. *)
Theorem no_attendance (cap : Z) (t : Q) (n : Z) :
  (0 <= cap)%Z -> t == 1 -> (0 <= n)%Z ->
  is_num (calcular_prob_overbooking (new cap t) n) 0.
Proof.
  intros Hc Ht Hn. rewrite prob_valid by (try lra; lia).
  simpl. rewrite cdf_q_sum by lia.
  rewrite cdf_sure_failure by lra. ring.
Qed.

Lemma no_attendance_witness :
  is_num (calcular_prob_overbooking (new 120 1) 500) 0.
Proof.
  apply (no_attendance 120 1 500); [lia | reflexivity | lia].
Defined.

End OverbookingMore.

(** ** The financial analysis *)

Module FinanceMore.
Import OverbookingAnalyzer OverbookingFacts OverbookingMore.

Lemma binom_pmf_valid (k n : Z) (p : Q) :
  (0 <= k <= n)%Z -> 0 <= p -> p <= 1 ->
  binom_pmf k n p = Some (pmf_nat p (Z.to_nat n) (Z.to_nat k)).
Proof.
  intros Hk Hp0 Hp1. unfold binom_pmf.
  rewrite binom_argcheck_true by (try assumption; lia).
  destruct (Z.leb_spec 0 k); [|lia].
  destruct (Z.leb_spec k n); [|lia]. reflexivity.
Qed.

Lemma inject_Z_nonneg (z : Z) : (0 <= z)%Z -> 0 <= inject_Z z.
Proof. intros H. change 0 with (inject_Z 0). rewrite <- Zle_Qle. exact H. Qed.

(** The sum of the loop, started at offset [s] above the capacity, lies
    between the mass [D] of the counts it ranges over and [D] times the
    largest excess. *)
Lemma excess_sum_bounds (p : Q) (cn N : nat) :
  0 <= p -> p <= 1 ->
  forall (len s : nat),
    (cn + s + len <= N)%nat ->
    exists v,
      fold_right
        (fun k rest =>
           np_add (np_mul (binom_pmf k (Z.of_nat N) p)
                          (Some (inject_Z (k - Z.of_nat cn))))
                  rest)
        (Some 0)
        (map (fun i => (Z.of_nat cn + 1 + Z.of_nat i)%Z) (seq s len))
      = Some v /\
      sum_upto (pmf_nat p N) (cn + s + len) - sum_upto (pmf_nat p N) (cn + s)
        <= v /\
      v <= inject_Z (Z.of_nat (s + len))
           * (sum_upto (pmf_nat p N) (cn + s + len)
              - sum_upto (pmf_nat p N) (cn + s)).
Proof.
  intros Hp0 Hp1. induction len as [|len IH]; intros s Hle.
  - exists 0. simpl. rewrite Nat.add_0_r. split; [reflexivity|]. split; lra.
  - destruct (IH (S s)) as [v' [Hv' [Hlo Hhi]]]; [lia|].
    simpl seq. simpl map. simpl fold_right. rewrite Hv'.
    rewrite binom_pmf_valid by (try assumption; lia).
    rewrite Nat2Z.id.
    replace (Z.to_nat (Z.of_nat cn + 1 + Z.of_nat s)) with (S (cn + s)) by lia.
    replace (Z.of_nat cn + 1 + Z.of_nat s - Z.of_nat cn)%Z
      with (Z.of_nat (S s)) by lia.
    assert (Hs1 : 1 <= inject_Z (Z.of_nat (S s))).
    { change 1 with (inject_Z 1). rewrite <- Zle_Qle. lia. }
    assert (HsW : inject_Z (Z.of_nat (S s)) <= inject_Z (Z.of_nat (s + S len))).
    { rewrite <- Zle_Qle. lia. }
    set (w := inject_Z (Z.of_nat (S s))) in *.
    unfold np_add, np_mul, np_lift2.
    eexists. split; [reflexivity|].
    replace (cn + S s + len)%nat with (cn + s + S len)%nat in * by lia.
    replace (S s + len)%nat with (s + S len)%nat in * by lia.
    replace (cn + S s)%nat with (S (cn + s)) in * by lia.
    change (sum_upto (pmf_nat p N) (S (cn + s)))
      with (sum_upto (pmf_nat p N) (cn + s) + pmf_nat p N (S (cn + s))) in *.
    pose proof (pmf_nat_nonneg p N (S (cn + s)) Hp0 Hp1) as Hm.
    set (A := sum_upto (pmf_nat p N) (cn + s + S len)) in *.
    set (B := sum_upto (pmf_nat p N) (cn + s)) in *.
    set (m := pmf_nat p N (S (cn + s))) in *.
    set (W := inject_Z (Z.of_nat (s + S len))) in *.
    clearbody w A B m W.
    assert (H1 : 0 <= (w - 1) * m) by (apply Qmult_le_0_compat; lra).
    assert (H2 : 0 <= (W - w) * m) by (apply Qmult_le_0_compat; lra).
    split; lra.
Qed.

(** The expected excess against the overbooking probability of the same
    sale: at least the probability, at most the probability times the
    number of extra tickets. *)
Lemma excess_between (cap : Z) (t : Q) (passagens_extra : Z) :
  (0 <= cap)%Z -> 0 <= t -> t <= 1 -> (0 <= passagens_extra)%Z ->
  exists e q,
    valor_esperado_excesso (new cap t) passagens_extra = Some e /\
    calcular_prob_overbooking (new cap t) (cap + passagens_extra) = Some q /\
    q <= e /\ e <= inject_Z passagens_extra * q.
Proof.
  intros Hc Ht0 Ht1 Hx.
  pose proof (valor_esperado_excesso_is_sum (new cap t) passagens_extra) as Hsum.
  unfold expected_excess_sum, py_range in Hsum. simpl in Hsum.
  replace (Z.to_nat (cap + passagens_extra + 1 - (cap + 1)))
    with (Z.to_nat passagens_extra) in Hsum by lia.
  destruct (excess_sum_bounds (1 - t) (Z.to_nat cap)
              (Z.to_nat (cap + passagens_extra)) ltac:(lra) ltac:(lra)
              (Z.to_nat passagens_extra) 0%nat ltac:(lia))
    as [v [Hv [Hlo Hhi]]].
  rewrite !Z2Nat.id in Hv by lia.
  rewrite Hv in Hsum.
  destruct (valor_esperado_excesso (new cap t) passagens_extra) as [e|];
    simpl in Hsum; [|contradiction].
  exists e, (1 - cdf_q cap (cap + passagens_extra) (1 - t)).
  split; [reflexivity|].
  split; [apply prob_valid; try assumption; lia|].
  rewrite cdf_q_sum by lia.
  rewrite !Nat.add_0_r in Hlo, Hhi. simpl Nat.add in Hhi.
  replace (Z.to_nat cap + Z.to_nat passagens_extra)%nat
    with (Z.to_nat (cap + passagens_extra)) in Hlo, Hhi by lia.
  rewrite (cdf_full (1 - t) (Z.to_nat (cap + passagens_extra))
             (Z.to_nat (cap + passagens_extra)) (Nat.le_refl _)) in Hlo, Hhi.
  rewrite Z2Nat.id in Hhi by lia.
  rewrite Hsum. split; assumption.
Qed.

(** X13: for a valid model, extra tickets [>= 0] and a compensation [>= 0]:
    the expected cost is a number between 0 and the compensation of every
    extra passenger, and the expected profit is a number between the
    revenue minus that worst cost and the revenue. *)
Theorem analise_financeira_bounds (cap : Z) (t : Q) (passagens_extra : Z)
    (preco_passagem custo_indenizacao : Q) :
  (0 <= cap)%Z -> 0 <= t -> t <= 1 -> (0 <= passagens_extra)%Z ->
  0 <= custo_indenizacao ->
  let r := analise_financeira (new cap t) passagens_extra preco_passagem
             custo_indenizacao in
  exists c l,
    custo_esperado r = Some c /\ lucro_esperado r = Some l /\
    0 <= c /\ c <= inject_Z passagens_extra * custo_indenizacao /\
    inject_Z passagens_extra * (preco_passagem - custo_indenizacao) <= l /\
    l <= receita_adicional r.
Proof.
  intros Hc Ht0 Ht1 Hx Hcu r.
  destruct (excess_between cap t passagens_extra Hc Ht0 Ht1 Hx)
    as [e [q [He [Hq [Hlo Hhi]]]]].
  rewrite prob_valid in Hq by (try assumption; lia). injection Hq as <-.
  destruct (cdf_q_bounds cap (cap + passagens_extra) (1 - t))
    as [Hc0 Hc1]; try lra; try lia.
  pose proof (inject_Z_nonneg passagens_extra Hx) as Hx0.
  unfold r, analise_financeira. cbv zeta.
  simpl custo_esperado. simpl lucro_esperado. simpl receita_adicional.
  rewrite He. simpl.
  eexists. eexists. split; [reflexivity|]. split; [reflexivity|].
  revert Hlo Hhi Hc0 Hc1 Hx0.
  generalize (cdf_q cap (cap + passagens_extra) (1 - t)) as d.
  generalize (inject_Z passagens_extra) as x.
  intros x d Hlo Hhi Hc0 Hc1 Hx0.
  assert (He0 : 0 <= e) by lra.
  assert (He1 : e <= x).
  { assert (0 <= x * d) by (apply Qmult_le_0_compat; lra). lra. }
  assert (H1 : 0 <= e * custo_indenizacao) by (apply Qmult_le_0_compat; lra).
  assert (H2 : 0 <= (x - e) * custo_indenizacao)
    by (apply Qmult_le_0_compat; lra).
  repeat split; lra.
Qed.

Lemma analise_financeira_bounds_witness :
  let r := analise_financeira (new 3 (1 # 4)) 2 500 1200 in
  exists c l,
    custo_esperado r = Some c /\ lucro_esperado r = Some l /\
    0 <= c /\ c <= inject_Z 2 * 1200 /\
    inject_Z 2 * (500 - 1200) <= l /\
    l <= receita_adicional r.
Proof.
  apply (analise_financeira_bounds 3 (1 # 4) 2 500 1200);
    [lia | lra | lra | lia | lra].
Defined.

(** X14: without extra tickets (or with a negative number of them) the loop
    does not run, for any model: the expected cost is 0 and the expected
    profit is the revenue [passagens_extra * preco_passagem], which is 0
    when [passagens_extra] is 0. *)
Theorem analise_financeira_no_extra (self : t) (passagens_extra : Z)
    (preco_passagem custo_indenizacao : Q) :
  (passagens_extra <= 0)%Z ->
  let r := analise_financeira self passagens_extra preco_passagem
             custo_indenizacao in
  is_num (custo_esperado r) 0 /\
  is_num (lucro_esperado r) (inject_Z passagens_extra * preco_passagem) /\
  (passagens_extra = 0%Z ->
   receita_adicional r == 0 /\ is_num (lucro_esperado r) 0).
Proof.
  intros Hx r. unfold r, analise_financeira, valor_esperado_excesso, py_range.
  cbv zeta.
  replace (Z.to_nat (capacidade self + passagens_extra + 1
                     - (capacidade self + 1))) with O by lia.
  simpl. split; [ring|]. split; [ring|].
  intros ->. split; ring.
Qed.

Lemma analise_financeira_no_extra_witness :
  let r := analise_financeira (new 120 (12 # 100)) 0 500 1200 in
  is_num (custo_esperado r) 0 /\
  is_num (lucro_esperado r) (inject_Z 0 * 500) /\
  (0%Z = 0%Z -> receita_adicional r == 0 /\ is_num (lucro_esperado r) 0).
Proof.
  apply (analise_financeira_no_extra (new 120 (12 # 100)) 0 500 1200). lia.
Defined.

End FinanceMore.

(** ** ROI and its scenarios *)

Module ROIMore.
Import ROIAnalyzer ROIFacts Dashboard.

(** The ROI formula grows with the revenue when the investment is
    positive. *)
Lemma roi_formula_monotone (inv cost a b : Q) :
  0 < inv -> a <= b -> (a - cost) / inv * 100 <= (b - cost) / inv * 100.
Proof.
  intros Hinv Hab.
  apply Qmult_le_compat_r; [|lra].
  unfold Qdiv. apply Qmult_le_compat_r; [lra|].
  apply Qlt_le_weak, Qinv_lt_0_compat. exact Hinv.
Qed.

Lemma roi_formula_le_iff (inv lucro k : Q) :
  0 < inv -> (lucro / inv * 100 <= k * 100 <-> lucro <= k * inv).
Proof.
  intros Hinv.
  assert (E : lucro == lucro / inv * inv) by (field; lra).
  set (y := lucro / inv) in *. clearbody y. rewrite E. split; intros H.
  - apply Qmult_le_compat_r; lra.
  - apply Qmult_le_r in H; [lra | exact Hinv].
Qed.

Lemma calcular_roi_some (self : t) (r : Q) :
  ~ investimento self == 0 ->
  exists receita,
    calcular_roi self (Some r)
      = Ok ((receita - custo_operacional self) / investimento self * 100) /\
    ((~ r == 0 /\ receita = r) \/ (r == 0 /\ receita = receita_esperada self)).
Proof.
  intros Hinv. unfold calcular_roi, py_truthy.
  rewrite py_div_nonzero by exact Hinv.
  destruct (Qeq_bool r 0) eqn:E; simpl.
  - eexists. split; [reflexivity|]. right.
    apply Qeq_bool_iff in E. split; [exact E | reflexivity].
  - eexists. split; [reflexivity|]. left. split; [|reflexivity].
    intros H. apply Qeq_bool_iff in H. congruence.
Qed.

(** X15: the optimistic scenario always shows the expected ROI, and fails
    exactly when it fails. *)
Theorem roi_otimista_is_roi_esperado (self : t) :
  roi_otimista self = calcular_roi self None.
Proof.
  unfold roi_otimista, calcular_roi.
  destruct (py_truthy (Some (receita_esperada self))); reflexivity.
Qed.

(** X16: with a positive investment and an expected revenue [>= 0] the three
    scenarios are numbers in increasing order: pessimistic, realistic,
    optimistic. *)
Theorem roi_scenarios_ordered (self : t) :
  0 < investimento self -> 0 <= receita_esperada self ->
  exists a b c,
    roi_pessimista self = Ok a /\ roi_realista self = Ok b /\
    roi_otimista self = Ok c /\ a <= b /\ b <= c.
Proof.
  intros Hinv Hrec.
  assert (Hne : ~ investimento self == 0) by lra.
  unfold roi_pessimista, roi_realista, roi_otimista.
  destruct (calcular_roi_some self (receita_esperada self * (7 # 10)) Hne)
    as [ra [Ea Ha]].
  destruct (calcular_roi_some self (receita_esperada self * (85 # 100)) Hne)
    as [rb [Eb Hb]].
  destruct (calcular_roi_some self (receita_esperada self) Hne)
    as [rc [Ec Hc]].
  rewrite Ea, Eb, Ec.
  eexists. eexists. eexists.
  split; [reflexivity|]. split; [reflexivity|]. split; [reflexivity|].
  assert (Hrc : rc = receita_esperada self) by (destruct Hc as [[_ ->] | [_ ->]]; reflexivity).
  split; apply roi_formula_monotone; try assumption.
  - destruct Ha as [[Ha0 ->] | [Ha0 ->]], Hb as [[Hb0 ->] | [Hb0 ->]]; lra.
  - rewrite Hrc. destruct Hb as [[Hb0 ->] | [Hb0 ->]]; lra.
Qed.

Lemma roi_scenarios_ordered_witness :
  exists a b c,
    roi_pessimista (mk 50000 80000 10000) = Ok a /\
    roi_realista (mk 50000 80000 10000) = Ok b /\
    roi_otimista (mk 50000 80000 10000) = Ok c /\ a <= b /\ b <= c.
Proof.
  apply (roi_scenarios_ordered (mk 50000 80000 10000)); simpl; lra.
Defined.

(** X17: what the ROI labels mean for a positive investment: "excelente" when
    the expected profit exceeds the investment, "baixo" when it is at most
    half of it, "bom" in between. *)
Theorem classificar_roi_meaning (self : t) :
  0 < investimento self ->
  let lucro := receita_esperada self - custo_operacional self in
  exists roi,
    calcular_roi self None = Ok roi /\
    (classificar_roi roi = Excelente <-> investimento self < lucro) /\
    (classificar_roi roi = Baixo <-> lucro <= (1 # 2) * investimento self) /\
    (classificar_roi roi = Bom <->
     (1 # 2) * investimento self < lucro /\ lucro <= investimento self).
Proof.
  intros Hinv lucro. unfold calcular_roi.
  rewrite py_div_nonzero by lra. fold lucro.
  eexists. split; [reflexivity|].
  pose proof (roi_formula_le_iff (investimento self) lucro 1 Hinv) as H100.
  pose proof (roi_formula_le_iff (investimento self) lucro (1 # 2) Hinv) as H50.
  change (1 * 100) with 100 in H100.
  assert (E50 : (1 # 2) * 100 == 50) by reflexivity.
  rewrite E50 in H50.
  set (roi := lucro / investimento self * 100) in *. clearbody roi.
  unfold classificar_roi.
  destruct (Qle_bool roi 100) eqn:E1; destruct (Qle_bool roi 50) eqn:E2; simpl.
  - apply Qle_bool_iff in E1, E2. apply H100 in E1. apply H50 in E2.
    repeat split; try discriminate; intros; try lra.
  - apply Qle_bool_iff in E1. apply H100 in E1.
    assert (N2 : ~ roi <= 50) by (intros H; apply Qle_bool_iff in H; congruence).
    assert (~ lucro <= (1 # 2) * investimento self) by (intros H; apply N2, H50, H).
    repeat split; try discriminate; intros; try lra.
  - apply Qle_bool_iff in E2.
    assert (N1 : ~ roi <= 100) by (intros H; apply Qle_bool_iff in H; congruence).
    exfalso. apply N1. lra.
  - assert (N1 : ~ roi <= 100) by (intros H; apply Qle_bool_iff in H; congruence).
    assert (~ lucro <= 1 * investimento self) by (intros H; apply N1, H100, H).
    repeat split; try discriminate; intros; try lra.
Qed.

Lemma classificar_roi_meaning_witness :
  let self := mk 50000 80000 10000 in
  let lucro := receita_esperada self - custo_operacional self in
  exists roi,
    calcular_roi self None = Ok roi /\
    (classificar_roi roi = Excelente <-> investimento self < lucro) /\
    (classificar_roi roi = Baixo <-> lucro <= (1 # 2) * investimento self) /\
    (classificar_roi roi = Bom <->
     (1 # 2) * investimento self < lucro /\ lucro <= investimento self).
Proof.
  apply (classificar_roi_meaning (mk 50000 80000 10000)). reflexivity.
Defined.

End ROIMore.

(** ** More on the Monte Carlo simulation *)

Module MonteCarloMore.
Import ROIAnalyzer ROIFacts ROIMore.

Section Generator.

Variable rng_state : Type.
Variable np_random_seed : Z -> rng_state.
Variable gauss : rng_state -> Q * rng_state.

Local Abbreviation simular :=
  (simulacao_monte_carlo rng_state np_random_seed gauss).
Local Abbreviation draw := (draw_normal rng_state gauss).

(** X18: a negative standard deviation or a negative sample count raises
    [ValueError]; the generator has been reseeded all the same. *)
Theorem simulacao_monte_carlo_value_error (self : t) (n : Z) (mu sd : Q)
    (g : rng_state) :
  sd < 0 \/ (n < 0)%Z ->
  simular self n mu sd g = (Raise ValueError, np_random_seed 42).
Proof.
  intros H. unfold simulacao_monte_carlo, np_random_normal.
  assert (E : (Qle_bool 0 sd && (0 <=? n)%Z)%bool = false).
  { destruct H as [H | H].
    - destruct (Qle_bool 0 sd) eqn:E; [|reflexivity].
      apply Qle_bool_iff in E. lra.
    - destruct (Z.leb_spec 0 n); [lia|]. apply andb_false_r. }
  rewrite E. reflexivity.
Qed.

(** The first draws do not depend on how many follow. *)
Lemma draw_normal_prefix (loc scale : Q) (n k : nat) :
  forall g,
    fst (draw loc scale n g) = firstn n (fst (draw loc scale (n + k) g)).
Proof.
  induction n as [|n IH]; intros g; simpl; [reflexivity|].
  destruct (gauss g) as [z g1]. specialize (IH g1).
  destruct (draw_normal rng_state gauss loc scale n g1) as [xs g2].
  destruct (draw_normal rng_state gauss loc scale (n + k) g1) as [ys g3].
  simpl in *. congruence.
Qed.

Lemma firstn_map {A B : Type} (f : A -> B) (n : nat) (l : list A) :
  firstn n (map f l) = map f (firstn n l).
Proof.
  revert l. induction n as [|n IH]; intros [|a l]; simpl; try reflexivity.
  rewrite IH. reflexivity.
Qed.

(** X19: a longer simulation starts with the shorter one: with the same mean
    and standard deviation, the [n] samples of a run are the first [n]
    samples of any run with [m >= n] samples, in all three sequences. *)
Theorem simulacao_monte_carlo_prefix (self : t) (n m : Z) (mu sd : Q)
    (g g' : rng_state) :
  (0 <= n <= m)%Z -> 0 <= sd ->
  exists short long,
    fst (simular self n mu sd g) = Ok short /\
    fst (simular self m mu sd g') = Ok long /\
    performances short = firstn (Z.to_nat n) (performances long) /\
    receitas short = firstn (Z.to_nat n) (receitas long) /\
    rois short = firstn (Z.to_nat n) (rois long).
Proof.
  intros Hnm Hsd.
  destruct (simulacao_monte_carlo_returns rng_state np_random_seed gauss
              self n mu sd g ltac:(lia) Hsd) as [short [g1 Hs]].
  destruct (simulacao_monte_carlo_returns rng_state np_random_seed gauss
              self m mu sd g' ltac:(lia) Hsd) as [long [g2 Hl]].
  exists short, long. rewrite Hs, Hl.
  split; [reflexivity|]. split; [reflexivity|].
  destruct (simulacao_monte_carlo_ok rng_state np_random_seed gauss
              self n mu sd g g1 short Hs) as [Ps [Rs Os]].
  destruct (simulacao_monte_carlo_ok rng_state np_random_seed gauss
              self m mu sd g' g2 long Hl) as [Pl [Rl Ol]].
  assert (EP : performances short = firstn (Z.to_nat n) (performances long)).
  { rewrite Ps, Pl, firstn_map. f_equal.
    replace (Z.to_nat m) with (Z.to_nat n + (Z.to_nat m - Z.to_nat n))%nat
      by lia.
    apply draw_normal_prefix. }
  assert (ER : receitas short = firstn (Z.to_nat n) (receitas long)).
  { rewrite Rs, Rl, firstn_map, EP. reflexivity. }
  split; [exact EP|]. split; [exact ER|].
  rewrite Os, Ol, firstn_map, ER. reflexivity.
Qed.

(** X20: with a positive investment and an expected revenue [>= 0], every
    simulated ROI is a number between the ROI without any revenue and the
    expected ROI. *)
Theorem simulacao_monte_carlo_roi_bounds (self : t) (n : Z) (mu sd : Q)
    (g g' : rng_state) (res : simulacao) :
  0 < investimento self -> 0 <= receita_esperada self ->
  simular self n mu sd g = (Ok res, g') ->
  forall roi,
    In roi (rois res) ->
    exists v,
      roi = Some v /\
      (0 - custo_operacional self) / investimento self * 100 <= v /\
      v <= (receita_esperada self - custo_operacional self)
           / investimento self * 100.
Proof.
  intros Hinv Hrec Hrun roi Hin.
  destruct (simulacao_monte_carlo_ok rng_state np_random_seed gauss
              self n mu sd g g' res Hrun) as [Hp [Hr Ho]].
  rewrite Ho, Hr, Hp in Hin. rewrite !map_map in Hin.
  apply in_map_iff in Hin. destruct Hin as [x [<- _]].
  unfold np_div. rewrite (Qeq_bool_false (investimento self) 0) by lra.
  simpl. eexists. split; [reflexivity|].
  destruct (clip01_bounds x) as [H0 H1].
  set (c := clip01 x) in *. clearbody c.
  assert (0 <= c * receita_esperada self) by (apply Qmult_le_0_compat; lra).
  assert (0 <= (1 - c) * receita_esperada self)
    by (apply Qmult_le_0_compat; lra).
  split; apply roi_formula_monotone; try assumption; lra.
Qed.

(** X21: with a standard deviation of zero every performance is the clipped
    mean. *)
Theorem simulacao_monte_carlo_zero_std (self : t) (n : Z) (mu sd : Q)
    (g g' : rng_state) (res : simulacao) :
  sd == 0 ->
  simular self n mu sd g = (Ok res, g') ->
  forall p, In p (performances res) -> p == clip01 mu.
Proof.
  intros Hsd Hrun p Hin.
  destruct (simulacao_monte_carlo_ok rng_state np_random_seed gauss
              self n mu sd g g' res Hrun) as [Hp _].
  rewrite Hp in Hin. apply in_map_iff in Hin. destruct Hin as [x [<- Hx]].
  assert (Hdraw : forall size g0 y,
            In y (fst (draw mu sd size g0)) -> y == mu).
  { induction size as [|size IH]; intros g0 y Hy; simpl in Hy.
    - contradiction.
    - destruct (gauss g0) as [z g1]. specialize (IH g1 y).
      destruct (draw_normal rng_state gauss mu sd size g1) as [xs g2].
      simpl in *. destruct Hy as [<- | Hy]; [|exact (IH Hy)].
      rewrite Hsd. ring. }
  specialize (Hdraw _ _ _ Hx).
  destruct (clip01_cases x) as [Xl [Xh Xm]].
  destruct (clip01_cases mu) as [Ml [Mh Mm]].
  destruct (Qlt_le_dec mu 0) as [H0 | H0].
  - rewrite Xl, Ml by lra. reflexivity.
  - destruct (Qlt_le_dec 1 mu) as [H1 | H1].
    + rewrite Xh, Mh by lra. reflexivity.
    + rewrite Xm, Mm by lra. exact Hdraw.
Qed.

End Generator.

Lemma simulacao_monte_carlo_value_error_witness :
  simulacao_monte_carlo Toy.state Toy.seed Toy.gauss
    (mk 50000 80000 10000) 1000 (3 # 4) (-(1 # 10)) 5%Z
  = (Raise ValueError, Toy.seed 42).
Proof.
  apply (simulacao_monte_carlo_value_error Toy.state Toy.seed Toy.gauss
           (mk 50000 80000 10000) 1000 (3 # 4) (-(1 # 10)) 5%Z).
  left. reflexivity.
Defined.

(** Runs on the toy generator. *)
Lemma simulacao_monte_carlo_prefix_witness :
  exists short long,
    fst (simulacao_monte_carlo Toy.state Toy.seed Toy.gauss
           (mk 50000 80000 10000) 2 (3 # 4) (15 # 100) 5%Z) = Ok short /\
    fst (simulacao_monte_carlo Toy.state Toy.seed Toy.gauss
           (mk 50000 80000 10000) 4 (3 # 4) (15 # 100) 9%Z) = Ok long /\
    performances short = firstn (Z.to_nat 2) (performances long) /\
    receitas short = firstn (Z.to_nat 2) (receitas long) /\
    rois short = firstn (Z.to_nat 2) (rois long).
Proof.
  apply (simulacao_monte_carlo_prefix Toy.state Toy.seed Toy.gauss
           (mk 50000 80000 10000) 2 4 (3 # 4) (15 # 100) 5%Z 9%Z);
    [lia | lra].
Defined.

Lemma toy_run_ok : toy_run = (Ok toy_result, snd toy_run).
Proof. vm_compute. reflexivity. Qed.

Lemma simulacao_monte_carlo_roi_bounds_witness :
  exists v,
    nth 0 (rois toy_result) None = Some v /\
    (0 - 10000) / 50000 * 100 <= v /\
    v <= (80000 - 10000) / 50000 * 100.
Proof.
  apply (simulacao_monte_carlo_roi_bounds Toy.state Toy.seed Toy.gauss
           (mk 50000 80000 10000) 3 (3 # 4) 0 5%Z (snd toy_run) toy_result).
  - reflexivity.
  - simpl. lra.
  - exact toy_run_ok.
  - vm_compute. left. reflexivity.
Defined.

Lemma simulacao_monte_carlo_zero_std_witness :
  nth 0 (performances toy_result) 0 == clip01 (3 # 4).
Proof.
  apply (simulacao_monte_carlo_zero_std Toy.state Toy.seed Toy.gauss
           (mk 50000 80000 10000) 3 (3 # 4) 0 5%Z (snd toy_run) toy_result).
  - reflexivity.
  - exact toy_run_ok.
  - vm_compute. left. reflexivity.
Defined.

End MonteCarloMore.

(** ** The values shown on the page *)

Module DashboardFacts.
Import OverbookingAnalyzer OverbookingFacts OverbookingMore FinanceMore Dashboard.

Lemma nth_error_map_seq {A : Type} (f : nat -> A) (len : nat) :
  forall (s i : nat) (x : A),
    nth_error (map f (seq s len)) i = Some x ->
    x = f (s + i)%nat /\ (i < len)%nat.
Proof.
  induction len as [|len IH]; intros s i x H.
  - destruct i; discriminate H.
  - destruct i as [|i]; simpl in H.
    + injection H as <-. rewrite Nat.add_0_r. split; [reflexivity | lia].
    + destruct (IH (S s) i x H) as [-> Hi].
      replace (S s + i)%nat with (s + S i)%nat by lia. split; [reflexivity | lia].
Qed.

(** The risk label of a valid model compares the probability with the
    default limit of [encontrar_max_passagens]. *)
Lemma risco_ok_iff (cap : Z) (t : Q) (n : Z) :
  (0 <= cap)%Z -> 0 <= t -> t <= 1 -> (0 <= n)%Z ->
  (risco_ok (new cap t) n = true <->
   ~ exceeds (new cap t) limite_risco_default n).
Proof.
  intros Hc Ht0 Ht1 Hn. unfold risco_ok, prob_overbooking, exceeds.
  rewrite prob_valid by assumption.
  set (q := 1 - cdf_q cap n (1 - t)). simpl np_leb. simpl np_gt.
  unfold limite_risco_default. rewrite Qle_bool_iff. split.
  - intros H E. apply negb_true_iff in E.
    assert (Hle : q <= 7 # 100) by lra.
    apply Qle_bool_iff in Hle. congruence.
  - intros H. destruct (Qle_bool q (7 # 100)) eqn:E.
    + apply Qle_bool_iff in E. lra.
    + exfalso. apply H. reflexivity.
Qed.

(** X22: for a valid model the risk label and the recommended maximum agree:
    when the label is not "OK" the tickets sold are above the maximum
    shown; and when the label is "OK" they are not above it, provided some
    count of the scanned range exceeds the 7% limit. *)
Theorem risk_label_matches_maximum (cap : Z) (t : Q) (passagens_vendidas : Z) :
  (0 <= cap)%Z -> 0 <= t -> t <= 1 -> (0 <= passagens_vendidas)%Z ->
  let analyzer := new cap t in
  (risco_ok analyzer passagens_vendidas = false ->
   (0 < acima_do_limite analyzer passagens_vendidas)%Z) /\
  ((exists n, in_scan_range analyzer n /\
              exceeds analyzer limite_risco_default n) ->
   risco_ok analyzer passagens_vendidas = true ->
   (acima_do_limite analyzer passagens_vendidas <= 0)%Z).
Proof.
  intros Hc Ht0 Ht1 Hs analyzer.
  pose proof (risco_ok_iff cap t passagens_vendidas Hc Ht0 Ht1 Hs) as Hiff.
  fold analyzer in Hiff.
  assert (Hcap : ~ exceeds analyzer limite_risco_default cap).
  { unfold exceeds, analyzer. rewrite prob_at_capacity by assumption.
    vm_compute. discriminate. }
  unfold acima_do_limite, max_passagens.
  destruct (encontrar_max_passagens_cases analyzer limite_risco_default)
    as [[Hres Hall] | [n0 [Hn0 [Hex0 [Hmin0 Hres]]]]];
    rewrite Hres; change (capacidade analyzer) with cap in *.
  - split.
    + intros Hbad.
      assert (Hex : exceeds analyzer limite_risco_default passagens_vendidas).
      { destruct (np_gt (calcular_prob_overbooking analyzer passagens_vendidas)
                        limite_risco_default) eqn:E; [exact E|].
        assert (risco_ok analyzer passagens_vendidas = true)
          by (apply Hiff; unfold exceeds; congruence).
        congruence. }
      destruct (Z.lt_ge_cases cap passagens_vendidas) as [Hlt | Hge]; [lia|].
      exfalso.
      destruct (prob_monotone cap t passagens_vendidas cap)
        as [a [b [Ha [Hb Hab]]]]; try assumption; try lia.
      unfold exceeds, analyzer in Hex, Hcap. rewrite Ha in Hex.
      rewrite Hb in Hcap. apply np_gt_true_iff in Hex.
      destruct Hex as [q [E Hq]]. injection E as <-.
      apply Hcap. apply np_gt_true_iff. exists b. split; [reflexivity | lra].
    + intros [n [Hn Hex]] _. exfalso. exact (Hall n Hn Hex).
  - unfold in_scan_range in Hn0. change (capacidade analyzer) with cap in Hn0.
    split.
    + intros Hbad.
      destruct (Z.lt_ge_cases passagens_vendidas n0) as [Hlt | Hge]; [|lia].
      exfalso.
      assert (Hex : exceeds analyzer limite_risco_default passagens_vendidas).
      { destruct (np_gt (calcular_prob_overbooking analyzer passagens_vendidas)
                        limite_risco_default) eqn:E; [exact E|].
        assert (risco_ok analyzer passagens_vendidas = true)
          by (apply Hiff; unfold exceeds; congruence).
        congruence. }
      destruct (prob_monotone cap t passagens_vendidas (n0 - 1))
        as [a [b [Ha [Hb Hab]]]]; try assumption.
      { split; [lia|]. destruct (Z.eq_dec n0 cap) as [-> | Hne];
          [contradiction | lia]. }
      assert (Hnot : ~ exceeds analyzer limite_risco_default (n0 - 1)).
      { apply Hmin0. destruct (Z.eq_dec n0 cap) as [-> | Hne];
          [contradiction | lia]. }
      unfold exceeds, analyzer in Hex, Hnot. rewrite Ha in Hex.
      rewrite Hb in Hnot. apply np_gt_true_iff in Hex.
      destruct Hex as [q [E Hq]]. injection E as <-.
      apply Hnot. apply np_gt_true_iff. exists b. split; [reflexivity | lra].
    + intros _ Hok. apply Hiff in Hok.
      destruct (Z.lt_ge_cases passagens_vendidas n0) as [Hlt | Hge]; [lia|].
      exfalso.
      destruct (prob_monotone cap t n0 passagens_vendidas)
        as [a [b [Ha [Hb Hab]]]]; try assumption; try lia.
      unfold exceeds, analyzer in Hex0, Hok. rewrite Ha in Hex0.
      rewrite Hb in Hok. apply np_gt_true_iff in Hex0.
      destruct Hex0 as [q [E Hq]]. injection E as <-.
      apply Hok. apply np_gt_true_iff. exists b. split; [reflexivity | lra].
Qed.

Lemma risk_label_matches_maximum_witness :
  let analyzer := new 2 (1 # 2) in
  (risco_ok analyzer 4 = false -> (0 < acima_do_limite analyzer 4)%Z) /\
  ((exists n, in_scan_range analyzer n /\
              exceeds analyzer limite_risco_default n) ->
   risco_ok analyzer 4 = true -> (acima_do_limite analyzer 4 <= 0)%Z).
Proof.
  apply (risk_label_matches_maximum 2 (1 # 2) 4); [lia | lra | lra | lia].
Defined.

(** X23: the scenario table has 21 rows, one per ticket count from the
    capacity on, in order.  For a valid model its first row shows no risk
    and no profit, and once a row is flagged as high risk every later row
    is. *)
Theorem cenarios_table (cap : Z) (t preco_passagem custo_indenizacao : Q) :
  (0 <= cap)%Z -> 0 <= t -> t <= 1 ->
  let tabela := cenarios (new cap t) preco_passagem custo_indenizacao in
  length tabela = 21%nat /\
  (exists primeira,
      nth_error tabela 0 = Some primeira /\
      passagens primeira = cap /\
      is_num (prob_pct primeira) 0 /\
      is_num (lucro primeira) 0 /\
      status_ok primeira = true) /\
  (forall i j ri rj,
      (i <= j)%nat ->
      nth_error tabela i = Some ri -> nth_error tabela j = Some rj ->
      passagens ri = (cap + Z.of_nat i)%Z /\
      (status_ok ri = false -> status_ok rj = false)).
Proof.
  intros Hc Ht0 Ht1 tabela.
  assert (Hlen : Z.to_nat (cap + 21 - cap) = 21%nat) by lia.
  split; [|split].
  - unfold tabela, cenarios, py_range. rewrite !length_map, length_seq.
    exact Hlen.
  - destruct (nth_error tabela 0) as [primeira|] eqn:E0.
    + exists primeira. split; [reflexivity|].
      unfold tabela, cenarios, py_range in E0. simpl capacidade in E0.
      rewrite Hlen, map_map in E0.
      apply nth_error_map_seq in E0. destruct E0 as [-> _].
      simpl Nat.add. simpl passagens. simpl prob_pct. simpl lucro.
      simpl status_ok.
      change (Z.of_nat 0) with 0%Z. rewrite !Z.add_0_r.
      split; [reflexivity|].
      destruct (analise_financeira_no_extra (new cap t) (cap - cap)
                  preco_passagem custo_indenizacao ltac:(lia))
        as [_ [_ Hzero]].
      destruct (Hzero ltac:(lia)) as [_ Hl].
      unfold prob_overbooking. rewrite prob_at_capacity by assumption.
      split; [simpl; ring|]. split; [exact Hl|].
      vm_compute. reflexivity.
    + exfalso. apply nth_error_None in E0.
      unfold tabela, cenarios, py_range in E0.
      rewrite !length_map, length_seq in E0. simpl capacidade in E0. lia.
  - intros i j ri rj Hij Hi Hj.
    unfold tabela, cenarios, py_range in Hi, Hj. simpl capacidade in Hi, Hj.
    rewrite Hlen, map_map in Hi, Hj.
    apply nth_error_map_seq in Hi. apply nth_error_map_seq in Hj.
    destruct Hi as [-> Hi]. destruct Hj as [-> Hj].
    simpl passagens. simpl status_ok. split; [reflexivity|].
    unfold prob_overbooking.
    destruct (prob_monotone cap t (cap + Z.of_nat i) (cap + Z.of_nat j))
      as [a [b [Ha [Hb Hab]]]]; try assumption; try lia.
    simpl Nat.add. rewrite Ha, Hb. simpl.
    intros Hbad.
    destruct (Qle_bool (b * 100) 7) eqn:E; [|reflexivity].
    apply Qle_bool_iff in E.
    assert (Hle : a * 100 <= 7) by lra.
    apply Qle_bool_iff in Hle. congruence.
Qed.

Lemma cenarios_table_witness :
  let tabela := cenarios (new 2 (1 # 2)) 500 1200 in
  length tabela = 21%nat /\
  (exists primeira,
      nth_error tabela 0 = Some primeira /\
      passagens primeira = 2%Z /\
      is_num (prob_pct primeira) 0 /\
      is_num (lucro primeira) 0 /\
      status_ok primeira = true) /\
  (forall i j ri rj,
      (i <= j)%nat ->
      nth_error tabela i = Some ri -> nth_error tabela j = Some rj ->
      passagens ri = (2 + Z.of_nat i)%Z /\
      (status_ok ri = false -> status_ok rj = false)).
Proof.
  apply (cenarios_table 2 (1 # 2) 500 1200); [lia | lra | lra].
Defined.

(** X24: the sensitivity curve has nine points; with a positive investment
    they are numbers and strictly decreasing from one operating cost to
    the next. *)
Theorem rois_test_decreasing (investimento receita_esperada : Q) :
  0 < investimento ->
  let curva := rois_test investimento receita_esperada in
  length curva = 9%nat /\
  (forall i j x y,
      (i < j)%nat ->
      nth_error curva i = Some x -> nth_error curva j = Some y ->
      exists a b, x = Some a /\ y = Some b /\ b < a).
Proof.
  intros Hinv curva. split; [reflexivity|].
  intros i j x y Hij Hi Hj.
  unfold curva, rois_test, custos_test, np_arange in Hi, Hj.
  rewrite map_map in Hi, Hj.
  apply nth_error_map_seq in Hi. apply nth_error_map_seq in Hj.
  destruct Hi as [-> Hi]. destruct Hj as [-> Hj].
  unfold np_div. rewrite (ROIFacts.Qeq_bool_false investimento 0) by lra.
  unfold np_mul, np_lift2. cbv beta. change (0 + i)%nat with i.
  change (0 + j)%nat with j.
  eexists. eexists. split; [reflexivity|]. split; [reflexivity|].
  assert (Hc : inject_Z (5000 + Z.of_nat i * 2500)
               < inject_Z (5000 + Z.of_nat j * 2500))
    by (rewrite <- Zlt_Qlt; lia).
  apply Qmult_lt_compat_r; [reflexivity|].
  unfold Qdiv. apply Qmult_lt_compat_r; [apply Qinv_lt_0_compat; exact Hinv|].
  lra.
Qed.

Lemma rois_test_decreasing_witness :
  let curva := rois_test 50000 80000 in
  length curva = 9%nat /\
  (forall i j x y,
      (i < j)%nat ->
      nth_error curva i = Some x -> nth_error curva j = Some y ->
      exists a b, x = Some a /\ y = Some b /\ b < a).
Proof.
  apply (rois_test_decreasing 50000 80000). reflexivity.
Defined.

End DashboardFacts.
